(** * System maintenance automation: monitoring cycle and report analysis

    A shallow embedding of [scripts/monitor_system.py] (class [SystemMonitor])
    and of the analysis half of [scripts/generate_reports.py] (class
    [ReportGenerator]), followed by the properties of the threshold rule, the
    retention pass, the collectors and the trend / cleanup analyses.

    Modelling conventions.
    - A Python [float] that is a number is an exact rational ([Q]); binary64
      rounding error is outside the model.  A float that may be NaN (the mean
      of an empty pandas selection) is an [option Q], [None] being NaN.
    - Instants are integers counting microseconds; a day is [day_us] of them.
    - A value obtained from the operating system (psutil, [df], [tune2fs],
      SMTP) is read from an environment record [Env]; an operation that can
      raise yields a [Result].
    - The SQLite file is taken to be reachable; a table is the list of its
      rows in insertion order, the surrogate [id] column left out.
    - Text is ASCII. *)

From Stdlib Require Import ZArith QArith Qround Qminmax Qabs List Bool Ascii String.
From Stdlib Require Import Lia Lqa Permutation.
Import ListNotations.

Local Open Scope Z_scope.

(** ** Python primitives used by both scripts *)

Module Py.

(** Exceptions the modelled code can meet. *)
Inductive exn : Type :=
| ZeroDivisionError
| ValueError
| IndexError
| OSError (what : string).

(** The outcome of an expression that may raise. *)
Inductive Result (A : Type) : Type :=
| Ok (a : A)
| Raise (e : exn).
Arguments Ok {A} a.
Arguments Raise {A} e.

Definition bind {A B : Type} (r : Result A) (k : A -> Result B) : Result B :=
  match r with
  | Ok a => k a
  | Raise e => Raise e
  end.

(** [try: return r / except Exception: return None]. *)
Definition caught {A : Type} (r : Result A) : option A :=
  match r with
  | Ok a => Some a
  | Raise _ => None
  end.

Declare Scope py_scope.
Delimit Scope py_scope with py.
Notation "'let!' x ':=' r 'in' k" := (bind r (fun x => k))
  (at level 10, x pattern, r at level 100, k at level 200) : py_scope.

(** *** Numbers *)

(** [x < y] on floats that are numbers. *)
Definition Qltb (x y : Q) : bool :=
  (Qnum x * QDen y <? Qnum y * QDen x)%Z.

(** A float that may be NaN. *)
Definition float := option Q.

(** [x > c] and [x < c] for a possibly-NaN [x]: every comparison with NaN
    is [False]. *)
Definition float_gt (x : float) (c : Q) : bool :=
  match x with Some v => Qltb c v | None => false end.

Definition float_lt (x : float) (c : Q) : bool :=
  match x with Some v => Qltb v c | None => false end.

(** Round half to even, to an integer. *)
Definition round_half_even (x : Q) : Z :=
  let f := Qfloor x in
  let twice := ((2 # 1) * (x - inject_Z f))%Q in
  if Qltb twice 1%Q then f
  else if Qltb 1%Q twice then f + 1
  else if Z.even f then f else f + 1.

(** [round(x, ndigits)]. *)
Definition round (x : Q) (ndigits : nat) : Q :=
  let scale := Z.pow 10 (Z.of_nat ndigits) in
  Qmake (round_half_even (x * inject_Z scale)%Q) (Z.to_pos scale).

(** [round] on a possibly-NaN float: [round(nan, n)] is NaN. *)
Definition round_float (x : float) (ndigits : nat) : float :=
  option_map (fun v => round v ndigits) x.

(** True division [a / b] of two [int]s. *)
Definition truediv (a b : Z) : Result Q :=
  if b =? 0 then Raise ZeroDivisionError
  else Ok (inject_Z a / inject_Z b)%Q.

(** *** Text *)

(** The ASCII characters [str.split()] and [str.strip()] treat as blank. *)
Definition is_space (c : ascii) : bool :=
  let n := nat_of_ascii c in
  ((9 <=? n) && (n <=? 13) || (28 <=? n) && (n <=? 32))%nat.

Fixpoint lstrip (s : string) : string :=
  match s with
  | String c s' => if is_space c then lstrip s' else s
  | EmptyString => EmptyString
  end.

(** [rstrip] keeps a character when it, or something after it, is not blank. *)
Fixpoint rstrip (s : string) : string :=
  match s with
  | EmptyString => EmptyString
  | String c s' =>
      match rstrip s' with
      | EmptyString => if is_space c then EmptyString else String c EmptyString
      | r => String c r
      end
  end.

Definition strip (s : string) : string := lstrip (rstrip s).

(** [s.split(sep)] for a one-character separator: never an empty list. *)
Fixpoint split_on (sep : ascii) (s : string) : list string :=
  match s with
  | EmptyString => [EmptyString]
  | String c s' =>
      if Ascii.eqb c sep then EmptyString :: split_on sep s'
      else match split_on sep s' with
           | w :: ws => String c w :: ws
           | [] => [String c EmptyString]
           end
  end.

(** [s.split()]: the maximal runs of non-blank characters.  [cur] is the run
    being read, reversed. *)
Fixpoint split_ws_aux (cur : list ascii) (s : string) : list string :=
  let flush (rest : list string) :=
    match cur with
    | [] => rest
    | _ => string_of_list_ascii (rev cur) :: rest
    end in
  match s with
  | EmptyString => flush []
  | String c s' =>
      if is_space c then flush (split_ws_aux [] s')
      else split_ws_aux (c :: cur) s'
  end.

Definition split_ws (s : string) : list string := split_ws_aux [] s.

(** [needle in s]. *)
Fixpoint contains (needle s : string) : bool :=
  if String.prefix needle s then true
  else match s with
       | EmptyString => false
       | String _ s' => contains needle s'
       end.

Definition digit_of (c : ascii) : option Z :=
  let n := nat_of_ascii c in
  if ((48 <=? n) && (n <=? 57))%nat then Some (Z.of_nat n - 48) else None.

(** The digits of an [int] literal, most significant first; a single
    underscore may separate two digits. *)
Fixpoint digits_value (acc : Z) (after_digit : bool) (s : string) : option Z :=
  match s with
  | EmptyString => if after_digit then Some acc else None
  | String c s' =>
      match digit_of c with
      | Some d => digits_value (10 * acc + d) true s'
      | None =>
          if (Ascii.eqb c "_" && after_digit)%bool
          then match s' with
               | EmptyString => None
               | _ => digits_value acc false s'
               end
          else None
      end
  end.

(** The unsigned part of an [int] literal. *)
Definition int_digits (t : string) : Result Z :=
  match digits_value 0 false t with
  | Some v => Ok v
  | None => Raise ValueError
  end.

(** [int(s)] for a string: blanks around, an optional sign, decimal digits. *)
Definition int (s : string) : Result Z :=
  match strip s with
  | String c t =>
      if Ascii.eqb c "-" then bind (int_digits t) (fun v => Ok (- v))
      else if Ascii.eqb c "+" then int_digits t
      else int_digits (String c t)
  | EmptyString => int_digits EmptyString
  end.

End Py.

(** ** JSON values and the dictionaries [json.load] returns *)

Module Json.
Import Py.

(** What [json.load] can return; an object is a [dict], its items in
    insertion order. *)
#[local] Unset Elimination Schemes.
Inductive json : Type :=
| JNull
| JBool (b : bool)
| JNumber (q : Q)
| JString (s : string)
| JArray (items : list json)
| JObject (fields : list (string * json)).
#[local] Set Elimination Schemes.

(** What stops the loading of a configuration: a [TypeError] of the merge,
    or whatever reading or writing the file raised. *)
Inductive failure : Type :=
| TypeError
| Failed (e : exn).

(** [key in config]: a key of a [dict], an element of a [list], a substring
    of a [str]; [None] is the [TypeError] of any other value. *)
Definition contains_key (config : json) (key : string) : option bool :=
  match config with
  | JObject fields => Some (existsb (fun kv => String.eqb (fst kv) key) fields)
  | JArray items =>
      Some (existsb (fun j => match j with
                              | JString s => String.eqb s key
                              | _ => false
                              end) items)
  | JString s => Some (contains key s)
  | _ => None
  end.

(** [d[key] = value] on the items of a [dict]: the value of a key that is
    there is replaced where it stands, a new key goes last. *)
Fixpoint set_field (fields : list (string * json)) (key : string) (value : json)
  : list (string * json) :=
  match fields with
  | [] => [(key, value)]
  | (k, v) :: rest =>
      if String.eqb k key then (k, value) :: rest
      else (k, v) :: set_field rest key value
  end.

(** [config[key] = value]; [None] is the [TypeError] of a [list] indexed by a
    string or of a value that takes no item assignment. *)
Definition set_item (config : json) (key : string) (value : json) : option json :=
  match config with
  | JObject fields => Some (JObject (set_field fields key value))
  | _ => None
  end.



(** [for key, value in default_config.items(): if key not in config:
    config[key] = value], returning [config]. *)
Fixpoint merge_defaults (defaults : list (string * json)) (config : json)
  : option json :=
  match defaults with
  | [] => Some config
  | (key, value) :: rest =>
      match contains_key config key with
      | Some true => merge_defaults rest config
      | Some false =>
          match set_item config key value with
          | Some config' => merge_defaults rest config'
          | None => None
          end
      | None => None
      end
  end.

(** The configuration file as [load_config] finds it: absent, or present
    with what [open] and [json.load] make of it; and what creating the
    directory and writing the file would do. *)
Record ConfigFile : Type := {
  on_disk : option (Result json);
  creating : Result unit
}.

(** What [load_config] returns, whether it wrote the default file, and the
    error it logged. *)
Record Loaded : Type := {
  config : json;
  created_file : bool;
  logged : option failure
}.

(** [load_config], shared by the two scripts up to [default_config]. *)
Definition load_config_with (default_config : list (string * json))
  (file : ConfigFile) : Loaded :=
  match on_disk file with
  | Some (Ok parsed) =>
      match merge_defaults default_config parsed with
      | Some merged =>
          {| config := merged; created_file := false; logged := None |}
      | None =>
          {| config := JObject default_config; created_file := false;
             logged := Some TypeError |}
      end
  | Some (Raise e) =>
      {| config := JObject default_config; created_file := false;
         logged := Some (Failed e) |}
  | None =>
      match creating file with
      | Ok _ =>
          {| config := JObject default_config; created_file := true;
             logged := None |}
      | Raise e =>
          {| config := JObject default_config; created_file := false;
             logged := Some (Failed e) |}
      end
  end.

End Json.

(** ** [scripts/monitor_system.py]: class [SystemMonitor] *)

Module Monitor.
Import Py.
Local Open Scope string_scope.
Local Open Scope list_scope.
Local Open Scope Z_scope.
Local Open Scope py_scope.

(** Microseconds in a day: [timedelta(days=1)]. *)
Definition day_us : Z := 86400 * 1000000.

(** *** Configuration ([load_config]) *)

Record EmailConfig : Type := {
  enabled : bool;
  smtp_server : string;
  smtp_port : Z;
  from_email : string;
  to_emails : list string;
  password : string
}.

Record Config : Type := {
  disk_usage_threshold : Q;
  inode_usage_threshold : Q;
  email_alerts : EmailConfig;
  monitored_paths : list string;
  check_interval : Z;
  retention_days : Q
}.

Definition default_config : Config := {|
  disk_usage_threshold := 85;
  inode_usage_threshold := 85;
  email_alerts := {|
    enabled := false;
    smtp_server := "localhost";
    smtp_port := 587;
    from_email := "system@localhost";
    to_emails := ["admin@localhost"];
    password := ""
  |};
  monitored_paths := ["/"; "/home"; "/var"; "/tmp"];
  check_interval := 300;
  retention_days := 30
|}.

(** *** Samples: the dictionaries the collectors return *)

Module Disk.
Record t : Type := {
  path : string;
  total_gb : Q;
  used_gb : Q;
  free_gb : Q;
  usage_percent : Q
}.
End Disk.

Module Inode.
Record t : Type := {
  path : string;
  total_inodes : Z;
  used_inodes : Z;
  free_inodes : Z;
  usage_percent : Q
}.
End Inode.

Module Health.
Record t : Type := {
  cpu_percent : Q;
  memory_percent : Q;
  load_avg_1 : Q;
  load_avg_5 : Q;
  load_avg_15 : Q
}.
End Health.

Module Fs.
Record t : Type := {
  path : string;
  filesystem : string;
  status : string;
  errors : Z
}.
End Fs.

(** The text of an alert, ["<what> on <path> is <usage>% (threshold:
    <threshold>%)"], kept as the values the f-string interpolates: the
    decimal rendering of a float is not modelled. *)
Record Message : Type := {
  what : string;
  on_path : string;
  is_percent : Q;
  threshold_percent : Q
}.

Record Alert : Type := {
  alert_type : string;
  severity : string;
  message : Message
}.

(** *** The database ([init_database]) *)

(** A stored row: the [timestamp] column, filled with the instant of the
    insertion, and the other columns. *)
Record Row (A : Type) : Type := {
  timestamp : Z;
  columns : A
}.
Arguments timestamp {A} r.
Arguments columns {A} r.

(** The columns of table [alerts]: [resolved] defaults to [FALSE]. *)
Record AlertColumns : Type := {
  alert : Alert;
  resolved : bool
}.

Record Store : Type := {
  disk_usage : list (Row Disk.t);
  inode_usage : list (Row Inode.t);
  system_health : list (Row Health.t);
  filesystem_health : list (Row Fs.t);
  alerts : list (Row AlertColumns)
}.

Definition empty_store : Store := {|
  disk_usage := []; inode_usage := []; system_health := [];
  filesystem_health := []; alerts := []
|}.

(** *** The operating system *)

(** [subprocess.CompletedProcess]. *)
Record Completed : Type := {
  returncode : Z;
  stdout : string
}.

(** The e-mail handed to the SMTP server. *)
Record Mail : Type := {
  mail_from : string;
  mail_to : list string;
  mail_alerts : list Alert
}.

Record Env : Type := {
  os_path_exists : string -> bool;
  (** [psutil.disk_usage(path)]: total, used and free bytes. *)
  psutil_disk_usage : string -> Result (Z * Z * Z);
  (** [subprocess.run(argv, capture_output=True, text=True)]. *)
  subprocess_run : list string -> Result Completed;
  psutil_cpu_percent : Result Q;
  psutil_virtual_memory_percent : Result Q;
  os_getloadavg : Result (Q * Q * Q);
  (** Connecting, logging in and [send_message]. *)
  smtp_send : Mail -> Result unit
}.

(** *** State: the database, the mail that left, the log *)

Inductive Level : Type := INFO | ERROR.

Inductive LogText : Type :=
| StartingCycle
| ErrorDiskUsage (path : string) (e : exn)
| ErrorInodeUsage (path : string) (e : exn)
| ErrorFilesystemHealth (path : string) (e : exn)
| ErrorSystemHealth (e : exn)
| EmailSent (recipients : list string)
| ErrorSendingEmail (e : exn)
| CleanedUp (days : Q)
| CycleCompleted.

Record World : Type := {
  db : Store;
  sent : list Mail;
  log : list (Level * LogText)
}.

Definition St (A : Type) : Type := World -> A * World.

Definition ret {A : Type} (a : A) : St A := fun w => (a, w).

Definition seq {A B : Type} (c : St A) (k : A -> St B) : St B :=
  fun w => let (a, w') := c w in k a w'.

Notation "x <- c ;; k" := (seq c (fun x => k))
  (at level 61, c at next level, right associativity) : py_scope.
Notation "c ;;; k" := (seq c (fun _ => k))
  (at level 61, right associativity) : py_scope.

Definition logger (lvl : Level) (t : LogText) : St unit :=
  fun w => (tt, {| db := db w; sent := sent w; log := log w ++ [(lvl, t)] |}).

Definition with_db (f : Store -> Store) : St unit :=
  fun w => (tt, {| db := f (db w); sent := sent w; log := log w |}).

Definition deliver (m : Mail) : St unit :=
  fun w => (tt, {| db := db w; sent := sent w ++ [m]; log := log w |}).

(** *** Collectors *)

Definition GiB : Z := 1024 ^ 3.

(** The [try] block of [get_disk_usage]. *)
Definition disk_usage_try (env : Env) (path : string) : Result Disk.t :=
  let! (total, used, free) := psutil_disk_usage env path in
  let! t := truediv total GiB in
  let! u := truediv used GiB in
  let! f := truediv free GiB in
  let! r := truediv used total in
  Ok {| Disk.path := path;
        Disk.total_gb := round t 2;
        Disk.used_gb := round u 2;
        Disk.free_gb := round f 2;
        Disk.usage_percent := round (r * 100)%Q 2 |}.

Definition get_disk_usage (env : Env) (path : string) : St (option Disk.t) :=
  match disk_usage_try env path with
  | Ok d => ret (Some d)
  | Raise e => logger ERROR (ErrorDiskUsage path e) ;;; ret None
  end.

Definition newline : ascii := "010"%char.

(** The [try] block of [get_inode_usage]; [Ok None] is the fall-through to
    the final [return None]. *)
Definition inode_usage_try (env : Env) (path : string)
  : Result (option Inode.t) :=
  let! result := subprocess_run env ["df"; "-i"; path] in
  if returncode result =? 0 then
    match split_on newline (strip (stdout result)) with
    | _ :: line1 :: _ =>
        match split_ws line1 with
        | _ :: p1 :: p2 :: p3 :: _ :: _ :: _ =>
            let! total_inodes := int p1 in
            let! used_inodes := int p2 in
            let! free_inodes := int p3 in
            let! usage_percent :=
              (if 0 <? total_inodes
               then let! r := truediv used_inodes total_inodes in
                    Ok (round (r * 100)%Q 2)
               else Ok 0%Q) in
            Ok (Some {| Inode.path := path;
                        Inode.total_inodes := total_inodes;
                        Inode.used_inodes := used_inodes;
                        Inode.free_inodes := free_inodes;
                        Inode.usage_percent := usage_percent |})
        | _ => Ok None
        end
    | _ => Ok None
    end
  else Ok None.

Definition get_inode_usage (env : Env) (path : string) : St (option Inode.t) :=
  match inode_usage_try env path with
  | Ok r => ret r
  | Raise e => logger ERROR (ErrorInodeUsage path e) ;;; ret None
  end.

(** The file-system type [check_filesystem_health] reads from [df -T]. *)
Definition filesystem_type (result : Completed) : string :=
  if returncode result =? 0 then
    match split_on newline (strip (stdout result)) with
    | _ :: line1 :: _ =>
        match split_ws line1 with
        | _ :: p1 :: _ => p1
        | _ => "unknown"
        end
    | _ => "unknown"
    end
  else "unknown".

(** The loop over the lines of [tune2fs -l]: the first line holding
    ["Filesystem errors:"] decides [(errors, status)], and ends the loop. *)
Fixpoint scan_tune2fs (lines : list string) : Result (Z * string) :=
  match lines with
  | [] => Ok (0, "healthy")
  | line :: rest =>
      if contains "Filesystem errors:" line then
        match split_on ":"%char line with
        | _ :: field :: _ =>
            let! errors := int (strip field) in
            Ok (errors, if 0 <? errors then "errors_detected" else "healthy")
        | _ => Raise IndexError
        end
      else scan_tune2fs rest
  end.

(** The [try] block of [check_filesystem_health]. *)
Definition filesystem_health_try (env : Env) (path : string) : Result Fs.t :=
  let! result := subprocess_run env ["df"; "-T"; path] in
  let filesystem := filesystem_type result in
  let! (errors, status) :=
    (if existsb (String.eqb filesystem) ["ext2"; "ext3"; "ext4"] then
       let! result := subprocess_run env ["tune2fs"; "-l"; path] in
       if returncode result =? 0
       then scan_tune2fs (split_on newline (stdout result))
       else Ok (0, "healthy")
     else Ok (0, "healthy")) in
  Ok {| Fs.path := path; Fs.filesystem := filesystem;
        Fs.status := status; Fs.errors := errors |}.

(** The dictionary the [except] branch of [check_filesystem_health]
    returns. *)
Definition check_failed (path : string) : Fs.t :=
  {| Fs.path := path; Fs.filesystem := "unknown";
     Fs.status := "check_failed"; Fs.errors := -1 |}.

Definition check_filesystem_health (env : Env) (path : string) : St Fs.t :=
  match filesystem_health_try env path with
  | Ok d => ret d
  | Raise e =>
      logger ERROR (ErrorFilesystemHealth path e) ;;;
      ret (check_failed path)
  end.

(** The [try] block of [get_system_health]. *)
Definition system_health_try (env : Env) : Result Health.t :=
  let! cpu_percent := psutil_cpu_percent env in
  let! memory := psutil_virtual_memory_percent env in
  let! (l1, l5, l15) := os_getloadavg env in
  Ok {| Health.cpu_percent := round cpu_percent 2;
        Health.memory_percent := round memory 2;
        Health.load_avg_1 := round l1 2;
        Health.load_avg_5 := round l5 2;
        Health.load_avg_15 := round l15 2 |}.

Definition get_system_health (env : Env) : St (option Health.t) :=
  match system_health_try env with
  | Ok d => ret (Some d)
  | Raise e => logger ERROR (ErrorSystemHealth e) ;;; ret None
  end.

(** *** Persisting *)

(** The row an [INSERT] at instant [now] adds: [timestamp] takes its
    default, [CURRENT_TIMESTAMP]. *)
Definition stamped {A : Type} (now : Z) (d : A) : Row A :=
  {| timestamp := now; columns := d |}.

(** [for data in batch: if data: INSERT ...] at instant [now]. *)
Definition insert_all {A : Type} (now : Z) (batch : list (option A))
  (table : list (Row A)) : list (Row A) :=
  fold_left
    (fun rows data =>
       match data with
       | Some d => rows ++ [stamped now d]
       | None => rows
       end)
    batch table.

Definition store_metrics (now : Z)
  (disk_data : list (option Disk.t)) (inode_data : list (option Inode.t))
  (system_data : option Health.t) (filesystem_data : list (option Fs.t))
  : St unit :=
  with_db (fun s =>
    {| disk_usage := insert_all now disk_data (disk_usage s);
       inode_usage := insert_all now inode_data (inode_usage s);
       system_health := insert_all now [system_data] (system_health s);
       filesystem_health := insert_all now filesystem_data (filesystem_health s);
       alerts := alerts s |}).

Definition store_alerts (now : Z) (new : list Alert) : St unit :=
  with_db (fun s =>
    {| disk_usage := disk_usage s;
       inode_usage := inode_usage s;
       system_health := system_health s;
       filesystem_health := filesystem_health s;
       alerts :=
         insert_all now
           (map (fun a => Some {| alert := a; resolved := false |}) new)
           (alerts s) |}).

Definition send_email_alerts (env : Env) (cfg : Config) (new : list Alert)
  : St unit :=
  let email_config := email_alerts cfg in
  let msg := {| mail_from := from_email email_config;
                mail_to := to_emails email_config;
                mail_alerts := new |} in
  match smtp_send env msg with
  | Ok _ => deliver msg ;;; logger INFO (EmailSent (to_emails email_config))
  | Raise e => logger ERROR (ErrorSendingEmail e)
  end.

(** *** Thresholds *)

Definition severity_of (usage_percent : Q) : string :=
  if Qltb 95 usage_percent then "critical" else "warning".

(** One turn of the first loop of [check_thresholds_and_alert]. *)
Definition check_disk (cfg : Config) (found : list Alert)
  (data : option Disk.t) : list Alert :=
  match data with
  | Some d =>
      if Qltb (disk_usage_threshold cfg) (Disk.usage_percent d) then
        found ++ [{| alert_type := "disk_usage";
                     severity := severity_of (Disk.usage_percent d);
                     message := {| what := "Disk usage";
                                   on_path := Disk.path d;
                                   is_percent := Disk.usage_percent d;
                                   threshold_percent := disk_usage_threshold cfg |} |}]
      else found
  | None => found
  end.

(** One turn of the second loop. *)
Definition check_inode (cfg : Config) (found : list Alert)
  (data : option Inode.t) : list Alert :=
  match data with
  | Some d =>
      if Qltb (inode_usage_threshold cfg) (Inode.usage_percent d) then
        found ++ [{| alert_type := "inode_usage";
                     severity := severity_of (Inode.usage_percent d);
                     message := {| what := "Inode usage";
                                   on_path := Inode.path d;
                                   is_percent := Inode.usage_percent d;
                                   threshold_percent := inode_usage_threshold cfg |} |}]
      else found
  | None => found
  end.

(** The list [alerts] as it stands after the two loops. *)
Definition threshold_alerts (cfg : Config)
  (disk_data : list (option Disk.t)) (inode_data : list (option Inode.t))
  : list Alert :=
  fold_left (check_inode cfg) inode_data
    (fold_left (check_disk cfg) disk_data []).

Definition check_thresholds_and_alert (env : Env) (cfg : Config) (now : Z)
  (disk_data : list (option Disk.t)) (inode_data : list (option Inode.t))
  : St unit :=
  let found := threshold_alerts cfg disk_data inode_data in
  match found with
  | [] => ret tt
  | _ =>
      store_alerts now found ;;;
      if enabled (email_alerts cfg)
      then send_email_alerts env cfg found
      else ret tt
  end.

(** *** Retention *)

(** [timedelta(days=d)] in microseconds; what is left of a microsecond is
    rounded half to even. *)
Definition timedelta_days (d : Q) : Z :=
  round_half_even (d * inject_Z day_us)%Q.

(** [DELETE FROM table WHERE timestamp < cutoff].  SQLite compares the
    stored text ['YYYY-MM-DD HH:MM:SS'] with the text of the bound
    [datetime], ['YYYY-MM-DD HH:MM:SS[.ffffff]'], character by character,
    which on these two shapes is the order of the instants they denote. *)
Definition delete_older {A : Type} (cutoff : Z) (table : list (Row A))
  : list (Row A) :=
  filter (fun r => negb (timestamp r <? cutoff)) table.

(** [now] and [now_alerts] are what the two calls of [datetime.now()]
    read. *)
Definition cleanup_old_data (cfg : Config) (now now_alerts : Z) : St unit :=
  let retention_date := now - timedelta_days (retention_days cfg) in
  let alert_retention_date := now_alerts - 90 * day_us in
  with_db (fun s =>
    {| disk_usage := delete_older retention_date (disk_usage s);
       inode_usage := delete_older retention_date (inode_usage s);
       system_health := delete_older retention_date (system_health s);
       filesystem_health := delete_older retention_date (filesystem_health s);
       alerts := delete_older alert_retention_date (alerts s) |}) ;;;
  logger INFO (CleanedUp (retention_days cfg)).

(** *** One cycle *)

(** [for path in monitored_paths: if os.path.exists(path): data = get(path);
    if data: batch.append(data)]. *)
Fixpoint collect_paths {A : Type} (env : Env) (get : string -> St (option A))
  (paths : list string) : St (list A) :=
  match paths with
  | [] => ret []
  | path :: rest =>
      if os_path_exists env path then
        data <- get path ;;
        batch <- collect_paths env get rest ;;
        ret (match data with Some d => d :: batch | None => batch end)
      else collect_paths env get rest
  end.

Record Batch : Type := {
  disk_data : list Disk.t;
  inode_data : list Inode.t;
  system_data : option Health.t;
  filesystem_data : list Fs.t
}.

(** The collecting part of [run_monitoring_cycle]. *)
Definition collect (env : Env) (cfg : Config) : St Batch :=
  disk <- collect_paths env (get_disk_usage env) (monitored_paths cfg) ;;
  inode <- collect_paths env (get_inode_usage env) (monitored_paths cfg) ;;
  system <- get_system_health env ;;
  filesystem <-
    collect_paths env
      (fun path => d <- check_filesystem_health env path ;; ret (Some d))
      (monitored_paths cfg) ;;
  ret {| disk_data := disk; inode_data := inode;
         system_data := system; filesystem_data := filesystem |}.

(** The instants at which the cycle writes and prunes. *)
Record Clock : Type := {
  at_store : Z;
  at_alerts : Z;
  at_cleanup : Z;
  at_cleanup_alerts : Z
}.

(** No modelled step raises out of its own handler, so the outer
    [except ...: raise] of the source has nothing to pass on. *)
Definition run_monitoring_cycle (env : Env) (cfg : Config) (clock : Clock)
  : St unit :=
  logger INFO StartingCycle ;;;
  batch <- collect env cfg ;;
  store_metrics (at_store clock)
    (map Some (disk_data batch)) (map Some (inode_data batch))
    (system_data batch) (map Some (filesystem_data batch)) ;;;
  check_thresholds_and_alert env cfg (at_alerts clock)
    (map Some (disk_data batch)) (map Some (inode_data batch)) ;;;
  cleanup_old_data cfg (at_cleanup clock) (at_cleanup_alerts clock) ;;;
  logger INFO CycleCompleted.

(** *** [load_config] *)

Import Json.

(** The dictionary [default_config] of [load_config]. *)
Definition default_items : list (string * json) :=
  [ ("disk_usage_threshold", JNumber 85);
    ("inode_usage_threshold", JNumber 85);
    ("email_alerts",
      JObject [ ("enabled", JBool false);
                ("smtp_server", JString "localhost");
                ("smtp_port", JNumber 587);
                ("from_email", JString "system@localhost");
                ("to_emails", JArray [JString "admin@localhost"]);
                ("password", JString "") ]);
    ("monitored_paths",
      JArray [JString "/"; JString "/home"; JString "/var"; JString "/tmp"]);
    ("check_interval", JNumber 300);
    ("retention_days", JNumber 30) ].

Definition load_config (file : ConfigFile) : Loaded :=
  load_config_with default_items file.

(** *** [init_database] *)

(** The database file: a table that was never created is [None]. *)
Record Database : Type := {
  disk_usage_table : option (list (Row Disk.t));
  inode_usage_table : option (list (Row Inode.t));
  system_health_table : option (list (Row Health.t));
  filesystem_health_table : option (list (Row Fs.t));
  alerts_table : option (list (Row AlertColumns))
}.

(** [CREATE TABLE IF NOT EXISTS]. *)
Definition create_table_if_not_exists {A : Type} (table : option (list A))
  : option (list A) :=
  match table with
  | Some rows => Some rows
  | None => Some []
  end.

Definition init_database (file : Database) : Database := {|
  disk_usage_table := create_table_if_not_exists (disk_usage_table file);
  inode_usage_table := create_table_if_not_exists (inode_usage_table file);
  system_health_table := create_table_if_not_exists (system_health_table file);
  filesystem_health_table :=
    create_table_if_not_exists (filesystem_health_table file);
  alerts_table := create_table_if_not_exists (alerts_table file)
|}.

(** The five tables of a database that has them all: what every other
    method reads and writes. *)
Definition tables (file : Database) : option Store :=
  match disk_usage_table file, inode_usage_table file,
        system_health_table file, filesystem_health_table file,
        alerts_table file with
  | Some d, Some i, Some h, Some f, Some a =>
      Some {| disk_usage := d; inode_usage := i; system_health := h;
              filesystem_health := f; alerts := a |}
  | _, _, _, _, _ => None
  end.

End Monitor.

(** ** [scripts/generate_reports.py]: the analyses of class [ReportGenerator] *)

Module Reports.
Import Py.
Import Monitor.
Local Open Scope string_scope.
Local Open Scope list_scope.
Local Open Scope Z_scope.

(** *** Reading the database *)

(** [ORDER BY timestamp], rows of one instant keeping their insertion
    order. *)
Fixpoint insert_by_timestamp {A : Type} (r : Row A) (sorted : list (Row A))
  : list (Row A) :=
  match sorted with
  | [] => [r]
  | x :: rest =>
      if timestamp r <=? timestamp x then r :: sorted
      else x :: insert_by_timestamp r rest
  end.

Definition order_by_timestamp {A : Type} (rows : list (Row A)) : list (Row A) :=
  fold_right insert_by_timestamp [] rows.

(** [WHERE timestamp >= datetime('now', '-<days> days') ORDER BY timestamp]. *)
Definition select_since {A : Type} (now days : Z) (table : list (Row A))
  : list (Row A) :=
  order_by_timestamp
    (filter (fun r => now - days * day_us <=? timestamp r) table).

Definition get_disk_usage_data (db : Store) (now days : Z) : list (Row Disk.t) :=
  select_since now days (disk_usage db).

Definition get_system_health_data (db : Store) (now days : Z)
  : list (Row Health.t) :=
  select_since now days (system_health db).

(** *** pandas *)

(** [Series.unique()]: the values in order of first appearance. *)
Fixpoint unique (l : list string) : list string :=
  match l with
  | [] => []
  | x :: rest => x :: filter (fun y => negb (String.eqb y x)) (unique rest)
  end.

(** [Series.diff()]: NaN first, then each value minus the one before. *)
Fixpoint diff_from (prev : Q) (l : list Q) : list float :=
  match l with
  | [] => []
  | x :: rest => Some (x - prev)%Q :: diff_from x rest
  end.

Definition diff (l : list Q) : list float :=
  match l with
  | [] => []
  | x :: rest => None :: diff_from x rest
  end.

(** The values of a series that are not NaN. *)
Fixpoint dropna (l : list float) : list Q :=
  match l with
  | [] => []
  | Some x :: rest => x :: dropna rest
  | None :: rest => dropna rest
  end.

Definition Qsum (l : list Q) : Q := fold_left Qplus l 0%Q.

(** [Series.mean()]: NaN values are skipped; NaN when nothing is left. *)
Definition mean (l : list float) : float :=
  match dropna l with
  | [] => None
  | xs => Some (Qsum xs / inject_Z (Z.of_nat (List.length xs)))%Q
  end.

(** [Series.tail(n)]. *)
Definition tail {A : Type} (n : nat) (l : list A) : list A :=
  skipn (List.length l - n) l.

(** [Series.max()] and [Series.min()]: NaN on an empty series. *)
Definition max (l : list Q) : float :=
  match l with
  | [] => None
  | x :: rest => Some (fold_left Qmax rest x)
  end.

Definition min (l : list Q) : float :=
  match l with
  | [] => None
  | x :: rest => Some (fold_left Qmin rest x)
  end.

(** [len(s[s < c])]. *)
Definition count_below (c : Q) (l : list float) : nat :=
  List.length (filter (fun d => float_lt d c) l).

(** [disk_data[disk_data['path'] == path].sort_values('timestamp')]. *)
Definition rows_of_path (path : string) (disk_data : list (Row Disk.t))
  : list (Row Disk.t) :=
  order_by_timestamp
    (filter (fun r => String.eqb (Disk.path (columns r)) path) disk_data).

Definition usage_percent_of (path_data : list (Row Disk.t)) : list Q :=
  map (fun r => Disk.usage_percent (columns r)) path_data.

(** The dictionary a loop over paths builds when it sets [d[path]] for the
    paths it does not skip with [continue]. *)
Definition keyed {E : Type} (entry : string -> option E)
  (paths : list string) : list (string * E) :=
  flat_map
    (fun path =>
       match entry path with
       | Some e => [(path, e)]
       | None => []
       end)
    paths.

(** *** [analyze_cleanup_effectiveness] *)

Module Entry.
Record t : Type := {
  initial_usage : Q;
  final_usage : Q;
  trend : Q;
  avg_daily_change : Q;
  cleanup_events : nat;
  effectiveness : string
}.
End Entry.

(** The whole days between two instants: [(b - a).days]. *)
Definition days_between (a b : Z) : Z := (b - a) / day_us.

(** The body of the loop for one path; [None] is [continue]. *)
Definition analyze_path (path_data : list (Row Disk.t)) : option Entry.t :=
  match path_data with
  | first :: _ :: _ =>
      let final := last path_data first in
      let initial_usage := Disk.usage_percent (columns first) in
      let final_usage := Disk.usage_percent (columns final) in
      let trend := (final_usage - initial_usage)%Q in
      let days_span := days_between (timestamp first) (timestamp final) in
      let avg_daily_change := (trend / inject_Z (Z.max days_span 1))%Q in
      let usage_diff := diff (usage_percent_of path_data) in
      let cleanup_events := count_below (- (1))%Q usage_diff in
      Some {| Entry.initial_usage := round initial_usage 2;
              Entry.final_usage := round final_usage 2;
              Entry.trend := round trend 2;
              Entry.avg_daily_change := round avg_daily_change 3;
              Entry.cleanup_events := cleanup_events;
              Entry.effectiveness :=
                if Qltb trend 0 then "good"
                else if Qltb 5 trend then "poor"
                else "stable" |}
  | _ => None
  end.

(** What [analyze_cleanup_effectiveness] returns: the ["no_data"] status, or
    the entries in the order their paths first appear. *)
Inductive CleanupAnalysis : Type :=
| NoData (message : string)
| PerPath (analysis : list (string * Entry.t)).

Definition analyze_frame (disk_data : list (Row Disk.t))
  : list (string * Entry.t) :=
  keyed (fun path => analyze_path (rows_of_path path disk_data))
    (unique (map (fun r => Disk.path (columns r)) disk_data)).

Definition analyze_cleanup_effectiveness (db : Store) (now days : Z)
  : CleanupAnalysis :=
  match get_disk_usage_data db now days with
  | [] => NoData "No disk usage data available"
  | disk_data => PerPath (analyze_frame disk_data)
  end.

(** *** [generate_trend_analysis] *)

(** ["increasing" if d > 0.1 else "decreasing" if d < -0.1 else "stable"]. *)
Definition classify (d : float) : string :=
  if float_gt d (1 # 10) then "increasing"
  else if float_lt d (- (1 # 10))%Q then "decreasing"
  else "stable".

Module Metric.
Record t : Type := {
  current_avg : float;
  trend : string;
  max_value : float;
  min_value : float
}.
End Metric.

(** The block written out for each of [cpu_percent], [memory_percent] and
    [load_avg_1], on that column of [health_data]. *)
Definition metric_trend (series : list Q) : Metric.t :=
  let d := mean (diff series) in
  {| Metric.current_avg := round_float (mean (map Some (tail 7 series))) 2;
     Metric.trend := classify d;
     Metric.max_value := round_float (max series) 2;
     Metric.min_value := round_float (min series) 2 |}.

Module DiskTrend.
Record t : Type := {
  current_usage : Q;
  trend : string;
  max_usage : float;
  min_usage : float
}.
End DiskTrend.

(** The body of the loop over paths; [None] when the path has one row. *)
Definition disk_trend (path_data : list (Row Disk.t)) : option DiskTrend.t :=
  match usage_percent_of path_data with
  | (first :: _ :: _) as usage =>
      let usage_trend := mean (diff usage) in
      Some {| DiskTrend.current_usage := round (last usage first) 2;
              DiskTrend.trend := classify usage_trend;
              DiskTrend.max_usage := round_float (max usage) 2;
              DiskTrend.min_usage := round_float (min usage) 2 |}
  | _ => None
  end.

Definition disk_trends (disk_data : list (Row Disk.t))
  : list (string * DiskTrend.t) :=
  keyed (fun path => disk_trend (rows_of_path path disk_data))
    (unique (map (fun r => Disk.path (columns r)) disk_data)).

(** The dictionary [trends]: a key that was never set is [None]. *)
Record Trends : Type := {
  cpu : option Metric.t;
  memory : option Metric.t;
  load_average : option Metric.t;
  disk_usage_trends : option (list (string * DiskTrend.t))
}.

Definition trends_of (health_data : list (Row Health.t))
  (disk_data : list (Row Disk.t)) : Trends :=
  let column (f : Health.t -> Q) := map (fun r => f (columns r)) health_data in
  let on_health (f : Health.t -> Q) :=
    match health_data with
    | [] => None
    | _ => Some (metric_trend (column f))
    end in
  {| cpu := on_health Health.cpu_percent;
     memory := on_health Health.memory_percent;
     load_average := on_health Health.load_avg_1;
     disk_usage_trends :=
       match disk_data with
       | [] => None
       | _ => Some (disk_trends disk_data)
       end |}.

Definition generate_trend_analysis (db : Store) (now days : Z) : Trends :=
  trends_of (get_system_health_data db now days)
            (get_disk_usage_data db now days).

(** *** The rating in [generate_monthly_report] *)

Record Rollup : Type := {
  overall_rating : string;
  good_count : nat;
  total_paths : nat
}.

(** The [else] branch under ["MONTHLY CLEANUP ANALYSIS"]. *)
Definition rate_effectiveness (analysis : list (string * Entry.t)) : Rollup :=
  let effectiveness_scores := map (fun kv => Entry.effectiveness (snd kv)) analysis in
  let good_count := count_occ string_dec effectiveness_scores "good" in
  let total_paths := List.length effectiveness_scores in
  {| overall_rating :=
       if (good_count =? total_paths)%nat then "Excellent"
       else if Qltb (inject_Z (Z.of_nat total_paths) / 2)
                    (inject_Z (Z.of_nat good_count))
       then "Good"
       else "Needs Improvement";
     good_count := good_count;
     total_paths := total_paths |}.

(** [None] when the report writes ["No cleanup data available for
    analysis."] instead. *)
Definition monthly_cleanup_rating (cleanup_analysis : CleanupAnalysis)
  : option Rollup :=
  match cleanup_analysis with
  | NoData _ => None
  | PerPath analysis => Some (rate_effectiveness analysis)
  end.

(** *** [load_config] *)

Import Json.

(** The dictionary [default_config] of [load_config]. *)
Definition default_items : list (string * json) :=
  [ ("report_types", JArray [JString "daily"; JString "weekly"; JString "monthly"]);
    ("include_charts", JBool true);
    ("chart_format", JString "png");
    ("retention_days", JNumber 90);
    ("email_reports",
      JObject [ ("enabled", JBool false);
                ("recipients", JArray [JString "admin@localhost"]);
                ("smtp_server", JString "localhost");
                ("smtp_port", JNumber 587);
                ("username", JString "");
                ("password", JString "") ]);
    ("thresholds",
      JObject [ ("disk_usage_warning", JNumber 80);
                ("disk_usage_critical", JNumber 90);
                ("memory_usage_warning", JNumber 80);
                ("memory_usage_critical", JNumber 90);
                ("load_average_warning", JNumber 2);
                ("load_average_critical", JNumber 4) ]) ].

Definition load_config (file : ConfigFile) : Loaded :=
  load_config_with default_items file.

(** *** [get_alerts_data] *)

(** [ORDER BY timestamp DESC], rows of one instant keeping their insertion
    order. *)
Fixpoint insert_by_timestamp_desc {A : Type} (r : Row A) (sorted : list (Row A))
  : list (Row A) :=
  match sorted with
  | [] => [r]
  | x :: rest =>
      if timestamp x <=? timestamp r then r :: sorted
      else x :: insert_by_timestamp_desc r rest
  end.

Definition order_by_timestamp_desc {A : Type} (rows : list (Row A))
  : list (Row A) :=
  fold_right insert_by_timestamp_desc [] rows.

Definition get_alerts_data (db : Store) (now days : Z)
  : list (Row AlertColumns) :=
  order_by_timestamp_desc
    (filter (fun r => now - days * day_us <=? timestamp r) (alerts db)).

(** *** Counting *)

(** Putting [(v, n)] among pairs ordered by falling count, before the
    first pair of a smaller count. *)
Fixpoint insert_by_count (p : string * nat) (sorted : list (string * nat))
  : list (string * nat) :=
  match sorted with
  | [] => [p]
  | x :: rest =>
      if (snd x <? snd p)%nat then p :: sorted
      else x :: insert_by_count p rest
  end.

(** [Series.value_counts()]: each distinct value with the number of times
    it occurs, the most frequent first; values of one count are taken to
    stay in the order of their first appearance. *)
Definition value_counts (l : list string) : list (string * nat) :=
  fold_right insert_by_count []
    (map (fun v => (v, count_occ string_dec l v)) (unique l)).

(** *** [generate_recommendations] and [generate_monthly_recommendations] *)

(** The sentences the two functions can write, kept as the values they
    interpolate. *)
Inductive Recommendation : Type :=
| MonitorCpu
| MonitorMemory
| ConsiderCleanup (path : string) (current_usage : Q)
| MonitorDisk (path : string)
| AddressRecurring (alert_type : string) (count : nat)
| AppearsHealthy
| ImproveCleanup (poor_paths : list string)
| PlanCapacity (high_usage_paths : list string)
| ReviewAlertThresholds
| ConsiderCpuUpgrade
| ConsiderMemoryUpgrade
| PerformanceStable.

(** ['key' in trends and trends['key']['trend'] == 'increasing']. *)
Definition is_increasing (m : option Metric.t) : bool :=
  match m with
  | Some t => String.eqb (Metric.trend t) "increasing"
  | None => false
  end.

(** The loop over [trends['disk_usage'].items()]. *)
Definition disk_recommendations (by_path : list (string * DiskTrend.t))
  : list Recommendation :=
  flat_map
    (fun kv =>
       let (path, data) := (kv : string * DiskTrend.t) in
       if Qltb 80 (DiskTrend.current_usage data)
       then [ConsiderCleanup path (DiskTrend.current_usage data)]
       else if String.eqb (DiskTrend.trend data) "increasing"
            then [MonitorDisk path]
            else [])
    by_path.

(** The loop over [alerts['alert_type'].value_counts().items()]. *)
Definition recurring_recommendations (alerts : list (Row AlertColumns))
  : list Recommendation :=
  flat_map
    (fun vc =>
       let (alert_type, count) := (vc : string * nat) in
       if (3 <? count)%nat then [AddressRecurring alert_type count] else [])
    (value_counts (map (fun r => alert_type (alert (columns r))) alerts)).

Definition generate_recommendations (trends : Trends)
  (alerts : list (Row AlertColumns)) : list Recommendation :=
  let recommendations :=
    (if is_increasing (cpu trends) then [MonitorCpu] else [])
    ++ (if is_increasing (memory trends) then [MonitorMemory] else [])
    ++ match disk_usage_trends trends with
       | Some by_path => disk_recommendations by_path
       | None => []
       end
    ++ recurring_recommendations alerts in
  match recommendations with
  | [] => [AppearsHealthy]
  | _ => recommendations
  end.

(** ['key' in trends and trends['key']['current_avg'] > bound]. *)
Definition average_above (m : option Metric.t) (bound : Q) : bool :=
  match m with
  | Some t => float_gt (Metric.current_avg t) bound
  | None => false
  end.

Definition critical_count (alerts : list (Row AlertColumns)) : nat :=
  List.length
    (filter (fun r => String.eqb (severity (alert (columns r))) "critical")
       alerts).

Definition generate_monthly_recommendations (cleanup_analysis : CleanupAnalysis)
  (trends : Trends) (alerts : list (Row AlertColumns)) : list Recommendation :=
  let poor_paths :=
    match cleanup_analysis with
    | PerPath analysis =>
        map fst
          (filter (fun kv => String.eqb (Entry.effectiveness (snd kv)) "poor")
             analysis)
    | NoData _ => []
    end in
  let high_usage_paths :=
    match disk_usage_trends trends with
    | Some by_path =>
        map fst
          (filter (fun kv => Qltb 75 (DiskTrend.current_usage (snd kv))) by_path)
    | None => []
    end in
  let recommendations :=
    match poor_paths with [] => [] | _ => [ImproveCleanup poor_paths] end
    ++ match high_usage_paths with [] => [] | _ => [PlanCapacity high_usage_paths] end
    ++ (if (10 <? critical_count alerts)%nat then [ReviewAlertThresholds] else [])
    ++ (if average_above (cpu trends) 70 then [ConsiderCpuUpgrade] else [])
    ++ (if average_above (memory trends) 80 then [ConsiderMemoryUpgrade] else []) in
  match recommendations with
  | [] => [PerformanceStable]
  | _ => recommendations
  end.

(** *** The alert figures of [generate_monthly_report] *)

Record AlertFigures : Type := {
  total_alerts : nat;
  critical_alerts : nat;
  warning_alerts : nat;
  alert_types : list (string * nat)
}.

(** [None] when the report writes ["No alerts this month."]. *)
Definition monthly_alert_figures (alerts : list (Row AlertColumns))
  : option AlertFigures :=
  match alerts with
  | [] => None
  | _ =>
      Some {| total_alerts := List.length alerts;
              critical_alerts := critical_count alerts;
              warning_alerts :=
                List.length
                  (filter (fun r => String.eqb (severity (alert (columns r)))
                                      "warning") alerts);
              alert_types :=
                value_counts
                  (map (fun r => alert_type (alert (columns r))) alerts) |}
  end.

(** *** [generate_monthly_statistics] *)

(** A value of the dictionary [stats]: a count, a number printed with one
    decimal and a per cent sign, a number printed with two decimals, or a
    text.  A printed number is kept as the rounded value. *)
Inductive Stat : Type :=
| Count (n : nat)
| Percent (x : Q)
| Fixed2 (x : Q)
| Text (s : string).

(** SQL [AVG] and [MAX] over the rows a [WHERE] kept: [NULL] when it kept
    none. *)
Definition sql_avg (column : list Q) : float := mean (map Some column).
Definition sql_max (column : list Q) : float := max column.

(** [if x:] for what [fetchone] gave: [None] and [0.0] are false. *)
Definition truthy (x : float) : bool :=
  match x with
  | Some v => negb (Qeq_bool v 0)
  | None => false
  end.

Definition since30 {A : Type} (now : Z) (table : list (Row A)) : list (Row A) :=
  filter (fun r => now - 30 * day_us <=? timestamp r) table.

(** [f"{x:.1f}%"] and [f"{x:.2f}"]; [None] is the [TypeError] of
    formatting a [NULL]. *)
Definition percent1 (x : float) : option Stat :=
  option_map (fun v => Percent (round v 1)) x.

Definition fixed2 (x : float) : option Stat :=
  option_map (fun v => Fixed2 (round v 2)) x.

(** The assignments [stats[key] = value] of one block, in order, until a
    value raises: what was assigned, and whether all were. *)
Fixpoint assign_all (entries : list (string * option Stat))
  : list (string * Stat) * bool :=
  match entries with
  | [] => ([], true)
  | (key, Some value) :: rest =>
      let (assigned, ok) := assign_all rest in ((key, value) :: assigned, ok)
  | (_, None) :: _ => ([], false)
  end.

Definition statistics_error : list (string * Stat) :=
  [("Error", Text "Unable to generate statistics")].

(** The blocks of the [try] in turn: [None] is a statement that raises.
    The first exception ends the [try]; what [stats] holds by then is kept
    and the ["Error"] entry added. *)
Fixpoint run_blocks (blocks : list (option (list (string * option Stat))))
  (stats : list (string * Stat)) : list (string * Stat) :=
  match blocks with
  | [] => stats
  | None :: _ => stats ++ statistics_error
  | Some entries :: rest =>
      let (assigned, ok) := assign_all entries in
      if ok then run_blocks rest (stats ++ assigned)
      else stats ++ assigned ++ statistics_error
  end.

(** The averages, or the peaks, of the three columns, written only when
    the figure of [cpu_percent] is true. *)
Definition figures (aggregate : list Q -> float) (cpu_key memory_key load_key : string)
  (window : list (Row Health.t)) : list (string * option Stat) :=
  let column (f : Health.t -> Q) := map (fun r => f (columns r)) window in
  let cpu := aggregate (column Health.cpu_percent) in
  if truthy cpu then
    [ (cpu_key, percent1 cpu);
      (memory_key, percent1 (aggregate (column Health.memory_percent)));
      (load_key, fixed2 (aggregate (column Health.load_avg_1))) ]
  else [].

(** [file] is the database file, [None] when there is none; a statement on
    a table that was never created raises. *)
Definition generate_monthly_statistics (file : option Database) (now : Z)
  : list (string * Stat) :=
  match file with
  | None => run_blocks [None] []
  | Some database =>
      let on_health (entries : list (Row Health.t) -> list (string * option Stat)) :=
        option_map (fun rows => entries (since30 now rows))
          (system_health_table database) in
      run_blocks
        [ on_health (fun window =>
            [("Data points collected", Some (Count (List.length window)))]);
          on_health (figures sql_avg "Average CPU usage"
                       "Average memory usage" "Average load");
          on_health (figures sql_max "Peak CPU usage"
                       "Peak memory usage" "Peak load");
          option_map
            (fun rows =>
               [("Total alerts", Some (Count (List.length (since30 now rows))))])
            (alerts_table database) ]
        []
  end.

End Reports.

(** ** The specification's vocabulary

    Written from the words of the specification, to be compared with what
    the scripts compute. *)

Module Spec.

(** The successive first differences [usage[i] - usage[i-1]]. *)
Fixpoint differences (l : list Q) : list Q :=
  match l with
  | x :: (y :: _) as rest => (y - x)%Q :: differences rest
  | _ => []
  end.

(** The arithmetic mean of a non-empty sequence. *)
Definition average (l : list Q) : Q :=
  (fold_left Qplus l 0 / inject_Z (Z.of_nat (List.length l)))%Q.

(** The [n] most recent samples, all of them when there are fewer. *)
Definition most_recent {A : Type} (n : nat) (l : list A) : list A :=
  rev (firstn n (rev l)).

(** The rows of a table whose path is [path]. *)
Definition samples_of (path : string) (rows : list (Monitor.Row Monitor.Disk.t))
  : list (Monitor.Row Monitor.Disk.t) :=
  filter (fun r => String.eqb (Monitor.Disk.path (Monitor.columns r)) path) rows.

(** Rows oldest first. *)
Inductive ascending {A : Type} : list (Monitor.Row A) -> Prop :=
| ascending_nil : ascending []
| ascending_cons r rows :
    Forall (fun x => (Monitor.timestamp r <= Monitor.timestamp x)%Z) rows ->
    ascending rows -> ascending (r :: rows).

(** The samples of the configured paths that exist, each path on its own:
    what [value] makes of a path is all that path contributes. *)
Definition gathered {A : Type} (env : Monitor.Env) (value : string -> option A)
  (paths : list string) : list A :=
  flat_map
    (fun path =>
       if Monitor.os_path_exists env path
       then match value path with Some d => [d] | None => [] end
       else [])
    paths.

(** An entry of the cleanup analysis that is labelled ['good']. *)
Definition is_good (kv : string * Reports.Entry.t) : bool :=
  String.eqb (Reports.Entry.effectiveness (snd kv)) "good".


(** Rows newest first. *)
Inductive descending {A : Type} : list (Monitor.Row A) -> Prop :=
| descending_nil : descending []
| descending_cons r rows :
    Forall (fun x => (Monitor.timestamp x <= Monitor.timestamp r)%Z) rows ->
    descending rows -> descending (r :: rows).

(** An alert row as threshold evaluation writes it: unresolved, of a known
    type and severity, critical exactly above 95, and about a usage above
    the threshold it quotes. *)
Definition evaluated (r : Monitor.Row Monitor.AlertColumns) : Prop :=
  let a := Monitor.alert (Monitor.columns r) in
  let m := Monitor.message a in
  Monitor.resolved (Monitor.columns r) = false
  /\ (Monitor.alert_type a = "disk_usage"%string
      \/ Monitor.alert_type a = "inode_usage"%string)
  /\ (Monitor.severity a = "critical"%string
      \/ Monitor.severity a = "warning"%string)
  /\ (Monitor.severity a = "critical"%string
      <-> (95 < Monitor.is_percent m)%Q)
  /\ (Monitor.threshold_percent m < Monitor.is_percent m)%Q.

(** Cycle after cycle, each on the host, with the configuration and at the
    instants of its own. *)
Fixpoint run_cycles
  (cycles : list (Monitor.Env * Monitor.Config * Monitor.Clock))
  (w : Monitor.World) : Monitor.World :=
  match cycles with
  | [] => w
  | (env, cfg, clock) :: rest =>
      run_cycles rest (snd (Monitor.run_monitoring_cycle env cfg clock w))
  end.

End Spec.

(** ** Sample hosts and histories

    Concrete inputs on which the properties below are exercised. *)

Module Fixtures.
Import Py.
Import Monitor.
Local Open Scope string_scope.
Local Open Scope list_scope.
Local Open Scope Z_scope.

Definition nl : string := String newline "".

(** A host on which ["/"] is a healthy ext4 volume at 90 % of its blocks and
    97 % of its inodes, ["/proc"] is a pseudo file system of size zero that
    [df -T] cannot describe, ["/var"] cannot be read at all, and ["/tmp"]
    does not exist. *)
Definition host : Env := {|
  os_path_exists := fun p => negb (String.eqb p "/tmp");
  psutil_disk_usage := fun p =>
    if String.eqb p "/" then Ok (100 * GiB, 90 * GiB, 10 * GiB)
    else if String.eqb p "/proc" then Ok (0, 0, 0)
    else Raise (OSError "No such file or directory");
  subprocess_run := fun argv =>
    match argv with
    | ["df"; "-i"; "/"] =>
        Ok {| returncode := 0;
              stdout := "Filesystem Inodes IUsed IFree IUse% Mounted on" ++ nl
                        ++ "/dev/sda1 1000 970 30 97% /" ++ nl |}
    | ["df"; "-i"; "/proc"] =>
        Ok {| returncode := 0;
              stdout := "Filesystem Inodes IUsed IFree IUse% Mounted on" ++ nl
                        ++ "proc 0 0 0 - /proc" ++ nl |}
    | ["df"; "-T"; "/"] =>
        Ok {| returncode := 0;
              stdout := "Filesystem Type 1K-blocks Used Available Use% Mounted on"
                        ++ nl ++ "/dev/sda1 ext4 100 90 10 90% /" ++ nl |}
    | ["tune2fs"; "-l"; "/"] =>
        Ok {| returncode := 0;
              stdout := "Filesystem state: clean" ++ nl
                        ++ "Filesystem errors:        0" ++ nl |}
    | _ => Raise (OSError "command failed")
    end;
  psutil_cpu_percent := Ok (25 # 2);
  psutil_virtual_memory_percent := Ok (40 # 1);
  os_getloadavg := Ok (1 # 4, 1 # 2, 3 # 4);
  smtp_send := fun _ => Ok tt
|}.

Definition paths_config : Config := {|
  disk_usage_threshold := 85;
  inode_usage_threshold := 85;
  email_alerts := email_alerts default_config;
  monitored_paths := ["/"; "/proc"; "/var"; "/tmp"];
  check_interval := 300;
  retention_days := 30
|}.

Definition fresh : World := {| db := empty_store; sent := []; log := [] |}.

(** A cycle on day 100. *)
Definition day100 : Clock := {|
  at_store := 100 * day_us;
  at_alerts := 100 * day_us + 1000000;
  at_cleanup := 100 * day_us + 2000000;
  at_cleanup_alerts := 100 * day_us + 2000001
|}.

(** A disk and an inode sample of path ["/"] at [u] per cent. *)
Definition disk_at (u : Q) : Disk.t := {|
  Disk.path := "/"; Disk.total_gb := 100; Disk.used_gb := u;
  Disk.free_gb := 100 - u; Disk.usage_percent := u
|}.

Definition inode_at (u : Q) : Inode.t := {|
  Inode.path := "/"; Inode.total_inodes := 100; Inode.used_inodes := 0;
  Inode.free_inodes := 100; Inode.usage_percent := u
|}.

(** A stored sample of [path] at [u] per cent, written [day] days in. *)
Definition stored (path : string) (day : Z) (u : Q) : Row Disk.t := {|
  timestamp := day * day_us;
  columns := {| Disk.path := path; Disk.total_gb := 100; Disk.used_gb := u;
                Disk.free_gb := 100 - u; Disk.usage_percent := u |}
|}.


(** Usage going from 10 to 11 per cent in three days. *)
Definition slow_growth : list (Row Disk.t) :=
  [stored "/srv" 0 10; stored "/srv" 3 11].

(** Two samples of ["/srv"] twenty hours apart. *)
Definition twenty_hours : list (Row Disk.t) :=
  [ {| timestamp := 0; columns := columns (stored "/srv" 0 60) |};
    {| timestamp := 20 * 3600 * 1000000; columns := columns (stored "/srv" 0 62) |} ].

Definition health (cpu : Q) : Health.t := {|
  Health.cpu_percent := cpu; Health.memory_percent := 50;
  Health.load_avg_1 := 1; Health.load_avg_5 := 1; Health.load_avg_15 := 1
|}.


(** A database holding one disk sample, of ["/"] on day 100. *)
Definition first_sample : Store := {|
  disk_usage := [stored "/" 100 50]; inode_usage := []; system_health := [];
  filesystem_health := []; alerts := []
|}.


End Fixtures.

(** * Properties *)

Import Spec.

Import Py.
Import Monitor.

(** ** Comparisons and rounding *)

Lemma Qltb_lt (x y : Q) : Qltb x y = true <-> (x < y)%Q.
Proof. unfold Qltb, Qlt. apply Z.ltb_lt. Qed.

Lemma Qltb_ge (x y : Q) : Qltb x y = false <-> (y <= x)%Q.
Proof. unfold Qltb, Qle. apply Z.ltb_ge. Qed.

Lemma Qltb_spec (x y : Q) : BoolSpec (x < y)%Q (y <= x)%Q (Qltb x y).
Proof.
  destruct (Qltb x y) eqn:E; constructor.
  - now apply Qltb_lt.
  - now apply Qltb_ge.
Qed.

(** ** Rounding *)

Section Rounding.

Local Open Scope Q_scope.


Lemma round_half_even_integer (k : Z) (x : Q) :
  x == inject_Z k -> round_half_even x = k.
Proof.
  intro E. unfold round_half_even.
  assert (F : Qfloor x = k).
  { rewrite E. apply Qfloor_Z. }
  rewrite F.
  destruct (Qltb_spec ((2 # 1) * (x - inject_Z k)) 1) as [H1|H1]; [reflexivity|].
  exfalso. lra.
Qed.

Lemma scale_pos (n : nat) : (0 < 10 ^ Z.of_nat n)%Z.
Proof. apply Z.pow_pos_nonneg; lia. Qed.

Lemma round_scaled (x : Q) (n : nat) :
  round x n * inject_Z (10 ^ Z.of_nat n) == inject_Z (round_half_even (x * inject_Z (10 ^ Z.of_nat n))).
Proof.
  unfold round. pose proof (scale_pos n) as Hp.
  set (s := (10 ^ Z.of_nat n)%Z) in *.
  unfold Qeq, Qmult, inject_Z. cbn [Qnum Qden].
  rewrite !Pos.mul_1_r, Z2Pos.id by exact Hp. ring.
Qed.


Lemma round_exact (x : Q) (n : nat) (k : Z) :
  x * inject_Z (10 ^ Z.of_nat n) == inject_Z k -> round x n == x.
Proof.
  intro E. pose proof (scale_pos n) as Hp.
  pose proof (round_scaled x n) as R.
  rewrite (round_half_even_integer k _ E) in R.
  set (s := (10 ^ Z.of_nat n)%Z) in *.
  assert (Hs : 0 < inject_Z s) by (unfold Qlt, inject_Z; cbn [Qnum Qden]; lia).
  rewrite <- E in R.
  apply Qmult_inj_r in R; [exact R|lra].
Qed.




End Rounding.

(** ** Threshold evaluation *)

Section Thresholds.

Variable cfg : Config.

Lemma check_disk_loop (batch : list (option Disk.t)) (found : list Alert) :
  fold_left (check_disk cfg) batch found
  = found ++ flat_map (fun data => check_disk cfg [] data) batch.
Proof.
  revert found.
  induction batch as [|data batch IH]; intro found; cbn [fold_left flat_map].
  - now rewrite app_nil_r.
  - rewrite IH, app_assoc. f_equal.
    destruct data as [d|]; cbn [check_disk]; [|now rewrite app_nil_r].
    destruct (Qltb _ _); now rewrite ?app_nil_r.
Qed.

Lemma check_inode_loop (batch : list (option Inode.t)) (found : list Alert) :
  fold_left (check_inode cfg) batch found
  = found ++ flat_map (fun data => check_inode cfg [] data) batch.
Proof.
  revert found.
  induction batch as [|data batch IH]; intro found; cbn [fold_left flat_map].
  - now rewrite app_nil_r.
  - rewrite IH, app_assoc. f_equal.
    destruct data as [d|]; cbn [check_inode]; [|now rewrite app_nil_r].
    destruct (Qltb _ _); now rewrite ?app_nil_r.
Qed.

(** The alerts of a batch are those of its samples, one sample at a time,
    disk samples first. *)
Lemma threshold_alerts_per_sample
  (disk : list (option Disk.t)) (inode : list (option Inode.t)) :
  threshold_alerts cfg disk inode
  = flat_map (fun data => threshold_alerts cfg [data] []) disk
    ++ flat_map (fun data => threshold_alerts cfg [] [data]) inode.
Proof.
  unfold threshold_alerts.
  now rewrite check_inode_loop, check_disk_loop.
Qed.

Lemma severity_of_critical (u : Q) :
  severity_of u = "critical"%string <-> (95 < u)%Q.
Proof.
  unfold severity_of.
  destruct (Qltb_spec 95 u) as [H|H]; split; intro G; auto; try discriminate.
  exfalso. apply (Qlt_irrefl u). now apply Qle_lt_trans with (y := 95%Q).
Qed.

Lemma severity_of_warning (u : Q) :
  severity_of u = "warning"%string <-> (u <= 95)%Q.
Proof.
  unfold severity_of.
  destruct (Qltb_spec 95 u) as [H|H]; split; intro G; auto; try discriminate.
  exfalso. apply (Qlt_irrefl u). now apply Qle_lt_trans with (y := 95%Q).
Qed.

(** A guarded [append]: one element above the threshold, none otherwise. *)
Lemma one_or_none (threshold u : Q) (a : Alert) :
  let out := if Qltb threshold u then [a] else [] in
  (List.length out = 1%nat <-> (threshold < u)%Q)
  /\ (out = [] <-> (u <= threshold)%Q)
  /\ (forall b, In b out -> b = a).
Proof.
  cbv zeta.
  destruct (Qltb_spec threshold u) as [Habove|Hbelow].
  - split; [split; [intros _; exact Habove|reflexivity]|].
    split.
    + split; [discriminate|]. intro Hle. exfalso.
      apply (Qlt_irrefl u). now apply Qle_lt_trans with (y := threshold).
    + intros b [<-|[]]. reflexivity.
  - split.
    + split; [discriminate|]. intro Hlt. exfalso.
      apply (Qlt_irrefl u). now apply Qle_lt_trans with (y := threshold).
    + split; [split; [intros _; exact Hbelow|reflexivity]|].
      intros b [].
Qed.

Ltac sample_rule :=
  cbv zeta; unfold threshold_alerts;
  cbn [fold_left check_disk check_inode app];
  match goal with
  | |- context [if Qltb ?t ?u then [?a] else []] =>
      destruct (one_or_none t u a) as (Hone & Hnone & Honly);
      split; [exact Hone|]; split; [exact Hnone|];
      intros b Hb; apply Honly in Hb; subst b;
      cbn [alert_type severity];
      split; [reflexivity|];
      split; [apply severity_of_critical|apply severity_of_warning]
  end.

Lemma disk_sample_rule (d : Disk.t) :
  let u := Disk.usage_percent d in
  let out := threshold_alerts cfg [Some d] [] in
  (List.length out = 1%nat <-> (disk_usage_threshold cfg < u)%Q)
  /\ (out = [] <-> (u <= disk_usage_threshold cfg)%Q)
  /\ (forall a, In a out ->
        alert_type a = "disk_usage"%string
        /\ (severity a = "critical"%string <-> (95 < u)%Q)
        /\ (severity a = "warning"%string <-> (u <= 95)%Q)).
Proof. sample_rule. Qed.

Lemma inode_sample_rule (d : Inode.t) :
  let u := Inode.usage_percent d in
  let out := threshold_alerts cfg [] [Some d] in
  (List.length out = 1%nat <-> (inode_usage_threshold cfg < u)%Q)
  /\ (out = [] <-> (u <= inode_usage_threshold cfg)%Q)
  /\ (forall a, In a out ->
        alert_type a = "inode_usage"%string
        /\ (severity a = "critical"%string <-> (95 < u)%Q)
        /\ (severity a = "warning"%string <-> (u <= 95)%Q)).
Proof. sample_rule. Qed.

End Thresholds.

(** C1.  A disk or inode sample raises exactly one alert when its
    [usage_percent] is strictly above the configured threshold and none
    when it is at or below it; the alert is ['critical'] when the usage is
    above 95 and ['warning'] otherwise; the alerts of a batch are those of
    its samples taken one by one.  With threshold 85: usage 80 gives no
    alert, 90 one warning, 96 one critical alert. *)
Theorem threshold_alert_rule (cfg : Config) :
  (forall d : Disk.t,
      let u := Disk.usage_percent d in
      let out := threshold_alerts cfg [Some d] [] in
      (List.length out = 1%nat <-> (disk_usage_threshold cfg < u)%Q)
      /\ (out = [] <-> (u <= disk_usage_threshold cfg)%Q)
      /\ (forall a, In a out ->
            alert_type a = "disk_usage"%string
            /\ (severity a = "critical"%string <-> (95 < u)%Q)
            /\ (severity a = "warning"%string <-> (u <= 95)%Q)))
  /\ (forall d : Inode.t,
      let u := Inode.usage_percent d in
      let out := threshold_alerts cfg [] [Some d] in
      (List.length out = 1%nat <-> (inode_usage_threshold cfg < u)%Q)
      /\ (out = [] <-> (u <= inode_usage_threshold cfg)%Q)
      /\ (forall a, In a out ->
            alert_type a = "inode_usage"%string
            /\ (severity a = "critical"%string <-> (95 < u)%Q)
            /\ (severity a = "warning"%string <-> (u <= 95)%Q)))
  /\ (forall disk inode,
      threshold_alerts cfg disk inode
      = flat_map (fun data => threshold_alerts cfg [data] []) disk
        ++ flat_map (fun data => threshold_alerts cfg [] [data]) inode)
  /\ threshold_alerts cfg [None] [None] = []
  /\ (let severities u :=
        map severity (threshold_alerts default_config [Some (Fixtures.disk_at u)] []) in
      severities 80%Q = []
      /\ severities 85%Q = []
      /\ severities 90%Q = ["warning"%string]
      /\ severities 95%Q = ["warning"%string]
      /\ severities 96%Q = ["critical"%string])
  /\ (let severities u :=
        map severity (threshold_alerts default_config [] [Some (Fixtures.inode_at u)]) in
      severities 80%Q = []
      /\ severities 85%Q = []
      /\ severities 90%Q = ["warning"%string]
      /\ severities 95%Q = ["warning"%string]
      /\ severities 96%Q = ["critical"%string])
  /\ map alert_type
       (threshold_alerts default_config
          [Some (Fixtures.disk_at 80); Some (Fixtures.disk_at 96)]
          [Some (Fixtures.inode_at 90); Some (Fixtures.inode_at 80)])
     = ["disk_usage"; "inode_usage"]%string.
Proof.
  split; [exact (disk_sample_rule cfg)|].
  split; [exact (inode_sample_rule cfg)|].
  split; [exact (threshold_alerts_per_sample cfg)|].
  repeat split; reflexivity.
Qed.

(** ** Retention *)

Section Retention.

Context {A : Type}.
Implicit Types (table removed : list (Row A)) (r : Row A) (cutoff : Z).

Lemma delete_older_In cutoff table r :
  In r (delete_older cutoff table) <-> In r table /\ (cutoff <= timestamp r)%Z.
Proof.
  unfold delete_older. rewrite filter_In, negb_true_iff, Z.ltb_ge.
  reflexivity.
Qed.

Lemma delete_older_app cutoff table table' :
  delete_older cutoff (table ++ table')
  = delete_older cutoff table ++ delete_older cutoff table'.
Proof. apply filter_app. Qed.

Lemma delete_older_keeps_all cutoff table :
  Forall (fun r => (cutoff <= timestamp r)%Z) table ->
  delete_older cutoff table = table.
Proof.
  induction 1 as [|r table Hr _ IH]; [reflexivity|].
  cbn. apply Z.ltb_ge in Hr. rewrite Hr. cbn. f_equal. exact IH.
Qed.


(** What [DELETE] takes away, in table order. *)
Lemma delete_older_split cutoff table :
  exists removed,
    Forall (fun r => (timestamp r < cutoff)%Z) removed
    /\ (List.length (delete_older cutoff table) + List.length removed
        = List.length table)%nat
    /\ forall r, In r table <-> In r (delete_older cutoff table) \/ In r removed.
Proof.
  exists (filter (fun r => (timestamp r <? cutoff)%Z) table).
  split; [|split].
  - apply Forall_forall. intros r Hr. apply filter_In in Hr.
    now apply Z.ltb_lt.
  - unfold delete_older.
    induction table as [|x table IH]; [reflexivity|].
    cbn. destruct (timestamp x <? cutoff)%Z; cbn; lia.
  - intro r. rewrite delete_older_In, filter_In, Z.ltb_lt.
    split.
    + intro Hr. destruct (Z.lt_ge_cases (timestamp r) cutoff); auto.
    + intros [[Hr _]|[Hr _]]; exact Hr.
Qed.

End Retention.

(** C4.  Pruning a table at cutoff [C] removes exactly the rows whose
    timestamp is strictly below [C] and keeps, in their order, every row
    whose timestamp is at least [C]; a row stamped exactly [C] stays. *)
Theorem prune_boundary (A : Type) (cutoff : Z) (table : list (Row A)) :
  (forall r, In r (delete_older cutoff table)
             <-> In r table /\ (cutoff <= timestamp r)%Z)
  /\ (forall r, In r table ->
        (~ In r (delete_older cutoff table) <-> (timestamp r < cutoff)%Z))
  /\ (forall r, In r table -> timestamp r = cutoff ->
        In r (delete_older cutoff table))
  /\ (forall before r after, table = before ++ r :: after ->
        delete_older cutoff table
        = delete_older cutoff before
          ++ (if (timestamp r <? cutoff)%Z then [] else [r])
          ++ delete_older cutoff after)
  /\ (Forall (fun r => (cutoff <= timestamp r)%Z) table ->
        delete_older cutoff table = table)
  /\ (exists removed,
        Forall (fun r => (timestamp r < cutoff)%Z) removed
        /\ (List.length (delete_older cutoff table) + List.length removed
            = List.length table)%nat
        /\ forall r, In r table
                     <-> In r (delete_older cutoff table) \/ In r removed).
Proof.
  split; [intro r; apply delete_older_In|].
  split.
  { intros r Hr. rewrite delete_older_In. split.
    - intro Hn. destruct (Z.lt_ge_cases (timestamp r) cutoff); [assumption|].
      exfalso. apply Hn. now split.
    - intros Hlt [_ Hge]. lia. }
  split.
  { intros r Hr Heq. apply delete_older_In. split; [assumption|lia]. }
  split.
  { intros before r after ->.
    rewrite delete_older_app. f_equal.
    change (r :: after) with ([r] ++ after).
    rewrite delete_older_app. f_equal.
    cbn. now destruct (timestamp r <? cutoff)%Z. }
  split; [apply delete_older_keeps_all|apply delete_older_split].
Qed.



(** ** Persisting *)

Lemma insert_all_app {A : Type} (now : Z) (batch : list (option A))
  (table : list (Row A)) :
  insert_all now batch table
  = table ++ flat_map (fun data =>
                         match data with
                         | Some d => [stamped now d]
                         | None => []
                         end) batch.
Proof.
  unfold insert_all. revert table.
  induction batch as [|data batch IH]; intro table; cbn [fold_left flat_map].
  - now rewrite app_nil_r.
  - rewrite IH. destruct data; [|reflexivity].
    now rewrite <- app_assoc.
Qed.

Lemma insert_all_present {A : Type} (now : Z) (batch : list A)
  (table : list (Row A)) :
  insert_all now (map Some batch) table = table ++ map (stamped now) batch.
Proof.
  rewrite insert_all_app. f_equal.
  induction batch as [|d batch IH]; [reflexivity|].
  cbn. now rewrite IH.
Qed.

Lemma send_email_alerts_db (env : Env) (cfg : Config) (new : list Alert)
  (w : World) :
  db (snd (send_email_alerts env cfg new w)) = db w.
Proof.
  unfold send_email_alerts. now destruct (smtp_send env _).
Qed.

Lemma check_thresholds_and_alert_db (env : Env) (cfg : Config) (now : Z)
  (disk : list (option Disk.t)) (inode : list (option Inode.t)) (w : World) :
  db (snd (check_thresholds_and_alert env cfg now disk inode w))
  = {| disk_usage := disk_usage (db w);
       inode_usage := inode_usage (db w);
       system_health := system_health (db w);
       filesystem_health := filesystem_health (db w);
       alerts :=
         alerts (db w)
         ++ map (fun a => stamped now {| alert := a; resolved := false |})
                (threshold_alerts cfg disk inode) |}.
Proof.
  unfold check_thresholds_and_alert.
  destruct (threshold_alerts cfg disk inode) as [|a found] eqn:E.
  - cbn. rewrite app_nil_r. now destruct (db w).
  - unfold seq, store_alerts, with_db.
    destruct (enabled (email_alerts cfg)).
    + rewrite send_email_alerts_db. cbn [db].
      now rewrite <- map_map, insert_all_present, map_map.
    + cbn [ret snd db].
      now rewrite <- map_map, insert_all_present, map_map.
Qed.

(** C7, as the code has it.  [check_thresholds_and_alert] derives the alerts
    from the samples and the two thresholds alone, and itself appends them,
    unresolved and in order, to table [alerts]; the four sample tables are
    left as they were, and the database is unchanged exactly when no
    threshold is exceeded. *)
Theorem threshold_check_stores_alerts (env : Env) (cfg : Config) (now : Z)
  (disk : list (option Disk.t)) (inode : list (option Inode.t)) (w : World) :
  let found := threshold_alerts cfg disk inode in
  let w' := snd (check_thresholds_and_alert env cfg now disk inode w) in
  alerts (db w')
  = alerts (db w)
    ++ map (fun a => stamped now {| alert := a; resolved := false |}) found
  /\ disk_usage (db w') = disk_usage (db w)
  /\ inode_usage (db w') = inode_usage (db w)
  /\ system_health (db w') = system_health (db w)
  /\ filesystem_health (db w') = filesystem_health (db w)
  /\ (found = [] -> w' = w)
  /\ (db w' = db w <-> found = [])
  /\ (forall cfg' : Config,
        disk_usage_threshold cfg' = disk_usage_threshold cfg ->
        inode_usage_threshold cfg' = inode_usage_threshold cfg ->
        threshold_alerts cfg' disk inode = found).
Proof.
  cbv zeta. rewrite check_thresholds_and_alert_db. cbn [alerts disk_usage
    inode_usage system_health filesystem_health].
  repeat match goal with |- _ /\ _ => split end; try reflexivity.
  - intro E. unfold check_thresholds_and_alert. now rewrite E.
  - split.
    + intro E. apply (f_equal alerts) in E. cbn [alerts] in E.
      rewrite <- (app_nil_r (alerts (db w))) in E at 2.
      apply app_inv_head in E.
      destruct (threshold_alerts cfg disk inode); [reflexivity|discriminate].
    + intros ->. cbn. rewrite app_nil_r. now destruct (db w).
  - intros cfg' Hd Hi. unfold threshold_alerts.
    assert (Ed : forall found data, check_disk cfg' found data = check_disk cfg found data).
    { intros found [d|]; cbn; [|reflexivity]. now rewrite Hd. }
    assert (Ei : forall found data, check_inode cfg' found data = check_inode cfg found data).
    { intros found [d|]; cbn; [|reflexivity]. now rewrite Hi. }
    assert (Fd : forall l acc, fold_left (check_disk cfg') l acc = fold_left (check_disk cfg) l acc).
    { induction l as [|x l IH]; intro acc; cbn; [reflexivity|]. now rewrite Ed, IH. }
    assert (Fi : forall l acc, fold_left (check_inode cfg') l acc = fold_left (check_inode cfg) l acc).
    { induction l as [|x l IH]; intro acc; cbn; [reflexivity|]. now rewrite Ei, IH. }
    now rewrite Fi, Fd.
Qed.

(** C7, as stated, fails: evaluating one disk sample at 90 % against the
    default threshold of 85 % on an empty database leaves a row in table
    [alerts]. *)
Lemma threshold_check_changes_store :
  let w' := snd (check_thresholds_and_alert Fixtures.host default_config 0
                   [Some (Fixtures.disk_at 90)] [] Fixtures.fresh) in
  db w' <> db Fixtures.fresh
  /\ List.length (alerts (db w')) = 1%nat
  /\ alerts (db Fixtures.fresh) = [].
Proof.
  cbv zeta. split; [|split; reflexivity].
  intro E. apply (f_equal (fun s => List.length (alerts s))) in E.
  vm_compute in E. discriminate.
Qed.

(** ** Collecting *)

Lemma seq_ret_value {A B : Type} (c : St A) (f : A -> B) (w : World) :
  fst (seq c (fun a => ret (f a)) w) = f (fst (c w)).
Proof. unfold seq. now destruct (c w). Qed.

Lemma seq_ret_world {A B : Type} (c : St A) (f : A -> B) (w : World) :
  snd (seq c (fun a => ret (f a)) w) = snd (c w).
Proof. unfold seq. now destruct (c w). Qed.

Lemma get_disk_usage_value (env : Env) (path : string) (w : World) :
  fst (get_disk_usage env path w) = caught (disk_usage_try env path).
Proof. unfold get_disk_usage. now destruct (disk_usage_try env path). Qed.

Lemma get_inode_usage_value (env : Env) (path : string) (w : World) :
  fst (get_inode_usage env path w)
  = match inode_usage_try env path with Ok r => r | Raise _ => None end.
Proof. unfold get_inode_usage. now destruct (inode_usage_try env path). Qed.

Lemma check_filesystem_health_value (env : Env) (path : string) (w : World) :
  fst (check_filesystem_health env path w)
  = match filesystem_health_try env path with
    | Ok d => d
    | Raise _ => check_failed path
    end.
Proof.
  unfold check_filesystem_health. now destruct (filesystem_health_try env path).
Qed.

Lemma get_disk_usage_db (env : Env) (path : string) (w : World) :
  db (snd (get_disk_usage env path w)) = db w.
Proof. unfold get_disk_usage. now destruct (disk_usage_try env path). Qed.

Lemma get_inode_usage_db (env : Env) (path : string) (w : World) :
  db (snd (get_inode_usage env path w)) = db w.
Proof. unfold get_inode_usage. now destruct (inode_usage_try env path). Qed.

Lemma check_filesystem_health_db (env : Env) (path : string) (w : World) :
  db (snd (check_filesystem_health env path w)) = db w.
Proof.
  unfold check_filesystem_health. now destruct (filesystem_health_try env path).
Qed.

Lemma get_system_health_db (env : Env) (w : World) :
  db (snd (get_system_health env w)) = db w.
Proof. unfold get_system_health. now destruct (system_health_try env). Qed.

Section CollectPaths.

Context {A : Type} (env : Env) (get : string -> St (option A)).

Lemma collect_paths_value (value : string -> option A) :
  (forall path w, fst (get path w) = value path) ->
  forall paths w, fst (collect_paths env get paths w) = gathered env value paths.
Proof.
  intros Hget paths.
  induction paths as [|path rest IH]; intro w; [reflexivity|].
  cbn [collect_paths gathered flat_map].
  destruct (os_path_exists env path); [|apply IH].
  unfold seq. specialize (Hget path w).
  destruct (get path w) as [data w1]. cbn [fst] in Hget. subst data.
  specialize (IH w1).
  destruct (collect_paths env get rest w1) as [batch w2]. cbn [fst] in IH.
  cbn [ret fst]. rewrite IH. now destruct (value path).
Qed.

Lemma collect_paths_db :
  (forall path w, db (snd (get path w)) = db w) ->
  forall paths w, db (snd (collect_paths env get paths w)) = db w.
Proof.
  intros Hget paths.
  induction paths as [|path rest IH]; intro w; [reflexivity|].
  cbn [collect_paths].
  destruct (os_path_exists env path); [|apply IH].
  unfold seq. specialize (Hget path w).
  destruct (get path w) as [data w1]. cbn [snd] in Hget.
  specialize (IH w1).
  destruct (collect_paths env get rest w1) as [batch w2]. cbn [snd] in IH.
  cbn [ret snd]. congruence.
Qed.

Lemma gathered_In (value : string -> option A) (paths : list string) (d : A) :
  In d (gathered env value paths)
  <-> exists path, In path paths /\ os_path_exists env path = true
                   /\ value path = Some d.
Proof.
  unfold gathered. rewrite in_flat_map. split.
  - intros (path & Hin & Hd). exists path.
    destruct (os_path_exists env path); [|contradiction].
    destruct (value path) as [d'|]; [|contradiction].
    destruct Hd as [->|[]]. auto.
  - intros (path & Hin & Hex & Hv). exists path.
    rewrite Hex, Hv. split; [assumption|now left].
Qed.

End CollectPaths.

Lemma collect_value (env : Env) (cfg : Config) (w : World) :
  fst (collect env cfg w)
  = {| disk_data :=
         gathered env (fun p => caught (disk_usage_try env p)) (monitored_paths cfg);
       inode_data :=
         gathered env
           (fun p => match inode_usage_try env p with Ok r => r | Raise _ => None end)
           (monitored_paths cfg);
       system_data := caught (system_health_try env);
       filesystem_data :=
         gathered env
           (fun p => Some match filesystem_health_try env p with
                          | Ok d => d
                          | Raise _ => check_failed p
                          end)
           (monitored_paths cfg) |}.
Proof.
  unfold collect, seq.
  pose proof (collect_paths_value env (get_disk_usage env) _
                (get_disk_usage_value env) (monitored_paths cfg) w) as Hd.
  destruct (collect_paths env (get_disk_usage env) _ w) as [disk w1].
  pose proof (collect_paths_value env (get_inode_usage env) _
                (get_inode_usage_value env) (monitored_paths cfg) w1) as Hi.
  destruct (collect_paths env (get_inode_usage env) _ w1) as [inode w2].
  assert (Hs : fst (get_system_health env w2) = caught (system_health_try env)).
  { unfold get_system_health. now destruct (system_health_try env). }
  destruct (get_system_health env w2) as [system w3].
  match goal with
  | |- context [collect_paths env ?g ?ps w3] =>
      pose proof (collect_paths_value env g
                    (fun p => Some match filesystem_health_try env p with
                                   | Ok d => d
                                   | Raise _ => check_failed p
                                   end)) as Hf;
      specialize (Hf (fun path w0 =>
                        eq_trans (seq_ret_value _ Some w0)
                          (f_equal Some (check_filesystem_health_value env path w0)))
                     ps w3);
      destruct (collect_paths env g ps w3) as [filesystem w4]
  end.
  cbn [fst ret] in *. now subst.
Qed.

Lemma collect_db (env : Env) (cfg : Config) (w : World) :
  db (snd (collect env cfg w)) = db w.
Proof.
  unfold collect, seq.
  pose proof (collect_paths_db env (get_disk_usage env)
                (get_disk_usage_db env) (monitored_paths cfg) w) as Hd.
  destruct (collect_paths env (get_disk_usage env) _ w) as [disk w1].
  pose proof (collect_paths_db env (get_inode_usage env)
                (get_inode_usage_db env) (monitored_paths cfg) w1) as Hi.
  destruct (collect_paths env (get_inode_usage env) _ w1) as [inode w2].
  pose proof (get_system_health_db env w2) as Hs.
  destruct (get_system_health env w2) as [system w3].
  match goal with
  | |- context [collect_paths env ?g ?ps w3] =>
      pose proof (collect_paths_db env g) as Hf;
      specialize (Hf (fun path w0 =>
                        eq_trans (f_equal db (seq_ret_world _ Some w0))
                          (check_filesystem_health_db env path w0))
                     ps w3);
      destruct (collect_paths env g ps w3) as [filesystem w4]
  end.
  cbn [snd ret] in *. congruence.
Qed.

Lemma collect_any_world (env : Env) (cfg : Config) (w w' : World) :
  fst (collect env cfg w') = fst (collect env cfg w).
Proof. now rewrite !collect_value. Qed.

(** The database one cycle leaves behind. *)
Lemma run_monitoring_cycle_db (env : Env) (cfg : Config) (clock : Clock)
  (w : World) :
  db (snd (run_monitoring_cycle env cfg clock w))
  = let batch := fst (collect env cfg w) in
    let cutoff := (at_cleanup clock - timedelta_days (retention_days cfg))%Z in
    let alert_cutoff := (at_cleanup_alerts clock - 90 * day_us)%Z in
    {| disk_usage :=
         delete_older cutoff
           (disk_usage (db w) ++ map (stamped (at_store clock)) (disk_data batch));
       inode_usage :=
         delete_older cutoff
           (inode_usage (db w) ++ map (stamped (at_store clock)) (inode_data batch));
       system_health :=
         delete_older cutoff
           (system_health (db w)
            ++ match system_data batch with
               | Some h => [stamped (at_store clock) h]
               | None => []
               end);
       filesystem_health :=
         delete_older cutoff
           (filesystem_health (db w)
            ++ map (stamped (at_store clock)) (filesystem_data batch));
       alerts :=
         delete_older alert_cutoff
           (alerts (db w)
            ++ map (fun a => stamped (at_alerts clock)
                               {| alert := a; resolved := false |})
                   (threshold_alerts cfg (map Some (disk_data batch))
                                         (map Some (inode_data batch)))) |}.
Proof.
  cbv zeta. unfold run_monitoring_cycle, seq. cbn [logger].
  set (w1 := {| db := db w; sent := sent w; log := _ |}).
  pose proof (collect_any_world env cfg w w1) as Hb.
  pose proof (collect_db env cfg w1) as Hdb.
  destruct (collect env cfg w1) as [batch w2]. cbn [fst snd] in Hb, Hdb.
  rewrite <- Hb. clear Hb. cbn [db w1] in Hdb.
  cbn [store_metrics with_db].
  match goal with
  | |- context [check_thresholds_and_alert env cfg ?t ?d ?i ?w3] =>
      pose proof (check_thresholds_and_alert_db env cfg t d i w3) as Ht;
      destruct (check_thresholds_and_alert env cfg t d i w3) as [u w4]
  end.
  cbn [snd db disk_usage inode_usage system_health filesystem_health alerts] in Ht.
  cbn [cleanup_old_data seq with_db logger snd db]. rewrite Ht.
  cbn [disk_usage inode_usage system_health filesystem_health alerts].
  rewrite Hdb, !insert_all_present.
  unfold insert_all. cbn [fold_left].
  destruct (system_data batch); now rewrite ?app_nil_r.
Qed.

(** Taking apart a [try] block that came to its end. *)
Ltac through_try H :=
  repeat match type of H with
    | bind ?r _ = Ok _ =>
        let E := fresh "E" in
        destruct r eqn:E; cbn [bind] in H; [|discriminate H]
    | match ?x with _ => _ end = Ok _ =>
        let E := fresh "E" in
        destruct x eqn:E; try discriminate H
    end.

Lemma disk_usage_try_path (env : Env) (path : string) (d : Disk.t) :
  disk_usage_try env path = Ok d -> Disk.path d = path.
Proof.
  unfold disk_usage_try. intro H. through_try H.
  now injection H as <-.
Qed.

Lemma inode_usage_try_path (env : Env) (path : string) (d : Inode.t) :
  inode_usage_try env path = Ok (Some d) -> Inode.path d = path.
Proof.
  unfold inode_usage_try. intro H. through_try H.
  now injection H as <-.
Qed.

(** C8, as the code has it.  In the collecting part of a cycle a failure of
    the disk-usage, inode-usage or system-health collector is caught and
    leaves no sample of that path and kind in the batch; a failure of the
    file-system check is caught and recorded as a [check_failed] sample of
    its path; whatever fails, every other existing path still contributes
    its sample, and the batch is what the cycle persists. *)
Theorem partial_collection (env : Env) (cfg : Config) (clock : Clock)
  (w : World) :
  let batch := fst (collect env cfg w) in
  let after := db (snd (run_monitoring_cycle env cfg clock w)) in
  let cutoff := (at_cleanup clock - timedelta_days (retention_days cfg))%Z in
  let monitored p := In p (monitored_paths cfg) /\ os_path_exists env p = true in
  (forall d, In d (disk_data batch)
             <-> exists p, monitored p /\ disk_usage_try env p = Ok d)
  /\ (forall d, In d (inode_data batch)
                <-> exists p, monitored p /\ inode_usage_try env p = Ok (Some d))
  /\ system_data batch = caught (system_health_try env)
  /\ (forall f, In f (filesystem_data batch)
                <-> exists p, monitored p
                              /\ (filesystem_health_try env p = Ok f
                                  \/ (exists e, filesystem_health_try env p = Raise e)
                                     /\ f = check_failed p))
  /\ (forall p e, disk_usage_try env p = Raise e ->
        forall d, In d (disk_data batch) -> Disk.path d <> p)
  /\ (forall p e, inode_usage_try env p = Raise e ->
        forall d, In d (inode_data batch) -> Inode.path d <> p)
  /\ db (snd (collect env cfg w)) = db w
  /\ ((cutoff <= at_store clock)%Z ->
        (forall d, In d (disk_data batch) ->
           In (stamped (at_store clock) d) (disk_usage after))
        /\ (forall d, In d (inode_data batch) ->
              In (stamped (at_store clock) d) (inode_usage after))
        /\ (forall d, system_data batch = Some d ->
              In (stamped (at_store clock) d) (system_health after))
        /\ (forall d, In d (filesystem_data batch) ->
              In (stamped (at_store clock) d) (filesystem_health after))).
Proof.
  cbv zeta. rewrite run_monitoring_cycle_db. cbv zeta.
  rewrite collect_value.
  cbn [disk_data inode_data system_data filesystem_data
       disk_usage inode_usage system_health filesystem_health].
  assert (Hdisk : forall d,
             In d (gathered env (fun p => caught (disk_usage_try env p))
                     (monitored_paths cfg))
             <-> exists p, (In p (monitored_paths cfg)
                            /\ os_path_exists env p = true)
                           /\ disk_usage_try env p = Ok d).
  { intro d. rewrite gathered_In. cbv beta. split.
    - intros (p & Hin & Hex & Hv). exists p. split; [now split|].
      destruct (disk_usage_try env p); cbv [caught] in Hv; congruence.
    - intros (p & [Hin Hex] & Hv). exists p. now rewrite Hv. }
  assert (Hinode : forall d,
             In d (gathered env
                     (fun p => match inode_usage_try env p with
                               | Ok r => r
                               | Raise _ => None
                               end) (monitored_paths cfg))
             <-> exists p, (In p (monitored_paths cfg)
                            /\ os_path_exists env p = true)
                           /\ inode_usage_try env p = Ok (Some d)).
  { intro d. rewrite gathered_In. cbv beta. split.
    - intros (p & Hin & Hex & Hv). exists p. split; [now split|].
      destruct (inode_usage_try env p); cbn in Hv; congruence.
    - intros (p & [Hin Hex] & Hv). exists p. now rewrite Hv. }
  split; [exact Hdisk|]. split; [exact Hinode|]. split; [reflexivity|].
  split.
  { intro f. rewrite gathered_In. cbv beta. split.
    - intros (p & Hin & Hex & Hv). exists p. split; [now split|].
      destruct (filesystem_health_try env p) as [d|e]; injection Hv as <-.
      + now left.
      + right. split; [now exists e|reflexivity].
    - intros (p & [Hin Hex] & [Hv|[[e Hv] ->]]); exists p; now rewrite Hv. }
  split.
  { intros p e Hp d Hd Heq. apply Hdisk in Hd. destruct Hd as (q & _ & Hq).
    pose proof (disk_usage_try_path _ _ _ Hq). congruence. }
  split.
  { intros p e Hp d Hd Heq. apply Hinode in Hd. destruct Hd as (q & _ & Hq).
    pose proof (inode_usage_try_path _ _ _ Hq). congruence. }
  split; [apply collect_db|].
  intro Hc.
  repeat match goal with |- _ /\ _ => split end;
    intros d Hd; apply delete_older_In; (split; [|exact Hc]);
    apply in_or_app; right.
  - now apply in_map.
  - now apply in_map.
  - rewrite Hd. now left.
  - now apply in_map.
Qed.

(** C8, as stated, fails for the file-system check: on a host where
    [df -T /var] cannot be run, the failed check of ["/var"] is not left out
    of the batch but enters it, and the database, as a [check_failed] row. *)
Lemma failed_filesystem_check_is_stored :
  let batch := fst (collect Fixtures.host Fixtures.paths_config Fixtures.fresh) in
  let after :=
    db (snd (run_monitoring_cycle Fixtures.host Fixtures.paths_config
               Fixtures.day100 Fixtures.fresh)) in
  filesystem_health_try Fixtures.host "/var" = Raise (OSError "command failed")
  /\ In (check_failed "/var") (filesystem_data batch)
  /\ In (stamped (at_store Fixtures.day100) (check_failed "/var"))
        (filesystem_health after).
Proof.
  cbv zeta. split; [reflexivity|].
  split; vm_compute; tauto.
Qed.

(** ** The zero guard *)

(** [int] raises nothing but [ValueError]. *)
Lemma int_digits_raises (t : string) (e : exn) :
  int_digits t = Raise e -> e = ValueError.
Proof.
  unfold int_digits. destruct (digits_value 0 false t); [discriminate|].
  intro H. now injection H as <-.
Qed.

Lemma int_raises (s : string) (e : exn) : int s = Raise e -> e = ValueError.
Proof.
  unfold int.
  destruct (strip s) as [|c t]; [apply int_digits_raises|].
  destruct (Ascii.eqb c "-").
  - destruct (int_digits t) as [v|e'] eqn:E; cbn [bind]; [discriminate|].
    intro H. injection H as <-. exact (int_digits_raises _ _ E).
  - destruct (Ascii.eqb c "+"); apply int_digits_raises.
Qed.

(** Whatever [df -i] prints, the inode computation divides by nothing that
    is zero: the only exceptions it can meet are those of running [df] and
    of reading a number. *)
Lemma inode_usage_try_raises (env : Env) (path : string) (e : exn) :
  inode_usage_try env path = Raise e ->
  subprocess_run env ["df"; "-i"; path]%string = Raise e \/ e = ValueError.
Proof.
  unfold inode_usage_try.
  destruct (subprocess_run env _) as [result|e0]; cbn [bind];
    [|intro H; injection H as <-; left; reflexivity].
  destruct (returncode result =? 0)%Z; [|discriminate].
  destruct (split_on newline (strip (stdout result))) as [|? [|line1 ?]];
    try discriminate.
  destruct (split_ws line1) as [|? [|p1 [|p2 [|p3 [|? [|? ?]]]]]];
    try discriminate.
  destruct (int p1) as [total|e1] eqn:E1; cbn [bind];
    [|intro H; injection H as <-; right; exact (int_raises _ _ E1)].
  destruct (int p2) as [used|e2] eqn:E2; cbn [bind];
    [|intro H; injection H as <-; right; exact (int_raises _ _ E2)].
  destruct (int p3) as [free|e3] eqn:E3; cbn [bind];
    [|intro H; injection H as <-; right; exact (int_raises _ _ E3)].
  destruct (0 <? total)%Z eqn:Ez; [|discriminate].
  unfold truediv.
  destruct (total =? 0)%Z eqn:E0; [|discriminate].
  apply Z.ltb_lt in Ez. apply Z.eqb_eq in E0. lia.
Qed.

(** C6, as the code has it.  When [df -i] reports a total of zero inodes
    (or fewer), [get_inode_usage] divides nothing: it raises no exception,
    logs nothing, and returns the sample with [usage_percent = 0]; the
    sample has the five fields of every inode sample and no mark of being
    invalid. *)
Theorem inode_zero_total_guard (env : Env) (path : string) (result : Completed)
  (header line1 : string) (rest : list string)
  (name p1 p2 p3 p4 p5 : string) (more : list string)
  (total used free : Z) (w : World) :
  subprocess_run env ["df"; "-i"; path]%string = Ok result ->
  returncode result = 0%Z ->
  split_on newline (strip (stdout result)) = header :: line1 :: rest ->
  split_ws line1 = name :: p1 :: p2 :: p3 :: p4 :: p5 :: more ->
  int p1 = Ok total -> int p2 = Ok used -> int p3 = Ok free ->
  (total <= 0)%Z ->
  inode_usage_try env path
  = Ok (Some {| Inode.path := path;
                Inode.total_inodes := total;
                Inode.used_inodes := used;
                Inode.free_inodes := free;
                Inode.usage_percent := 0 |})
  /\ get_inode_usage env path w
     = (Some {| Inode.path := path;
                Inode.total_inodes := total;
                Inode.used_inodes := used;
                Inode.free_inodes := free;
                Inode.usage_percent := 0 |}, w).
Proof.
  intros Hrun Hrc Hlines Hparts H1 H2 H3 Hz.
  assert (E : inode_usage_try env path
              = Ok (Some {| Inode.path := path;
                            Inode.total_inodes := total;
                            Inode.used_inodes := used;
                            Inode.free_inodes := free;
                            Inode.usage_percent := 0 |})).
  { unfold inode_usage_try.
    rewrite Hrun. cbn [bind]. rewrite Hrc. cbn [Z.eqb].
    rewrite Hlines, Hparts, H1. cbn [bind]. rewrite H2. cbn [bind].
    rewrite H3. cbn [bind].
    apply Z.ltb_ge in Hz. now rewrite Hz. }
  split; [exact E|].
  unfold get_inode_usage. now rewrite E.
Qed.

(** The guard at work on ["/proc"], whose [df -i] line reads
    [proc 0 0 0 - /proc]. *)
Lemma inode_zero_total_guard_on_proc :
  inode_usage_try Fixtures.host "/proc"
  = Ok (Some {| Inode.path := "/proc";
                Inode.total_inodes := 0;
                Inode.used_inodes := 0;
                Inode.free_inodes := 0;
                Inode.usage_percent := 0 |})
  /\ get_inode_usage Fixtures.host "/proc" Fixtures.fresh
     = (Some {| Inode.path := "/proc";
                Inode.total_inodes := 0;
                Inode.used_inodes := 0;
                Inode.free_inodes := 0;
                Inode.usage_percent := 0 |}, Fixtures.fresh).
Proof.
  apply (inode_zero_total_guard Fixtures.host "/proc"
           {| returncode := 0;
              stdout := "Filesystem Inodes IUsed IFree IUse% Mounted on"
                        ++ Fixtures.nl ++ "proc 0 0 0 - /proc" ++ Fixtures.nl |}
           "Filesystem Inodes IUsed IFree IUse% Mounted on" "proc 0 0 0 - /proc" []
           "proc" "0" "0" "0" "-" "/proc" [] 0 0 0 Fixtures.fresh);
    solve [reflexivity | vm_compute; discriminate].
Defined.

(** C6, as stated, fails twice over: for a disk of total size zero the
    division is attempted, the [ZeroDivisionError] is caught and logged, and
    no sample at all comes back; and the inode sample of a zero total,
    though its [usage_percent] is 0, is an ordinary sample of five fields,
    none of which flags it. *)
Lemma zero_total_disk_yields_no_sample :
  psutil_disk_usage Fixtures.host "/proc" = Ok (0, 0, 0)%Z
  /\ disk_usage_try Fixtures.host "/proc" = Raise ZeroDivisionError
  /\ get_disk_usage Fixtures.host "/proc" Fixtures.fresh
     = (None, {| db := empty_store; sent := [];
                 log := [(ERROR, ErrorDiskUsage "/proc" ZeroDivisionError)] |})
  /\ get_inode_usage Fixtures.host "/proc" Fixtures.fresh
     = (Some {| Inode.path := "/proc";
                Inode.total_inodes := 0;
                Inode.used_inodes := 0;
                Inode.free_inodes := 0;
                Inode.usage_percent := 0 |}, Fixtures.fresh).
Proof. repeat split. Qed.


(** ** Frames: ordering, distinct paths, keyed entries *)

Import Reports.

Section Frames.

Context {A : Type}.
Implicit Types (r : Row A) (rows : list (Row A)).

Lemma insert_by_timestamp_perm r rows :
  Permutation (insert_by_timestamp r rows) (r :: rows).
Proof.
  induction rows as [|x rows IH]; cbn; [reflexivity|].
  destruct (timestamp r <=? timestamp x)%Z; [reflexivity|].
  rewrite IH. apply perm_swap.
Qed.

Lemma order_by_timestamp_perm rows : Permutation (order_by_timestamp rows) rows.
Proof.
  induction rows as [|x rows IH]; cbn; [reflexivity|].
  rewrite insert_by_timestamp_perm. now constructor.
Qed.

Lemma order_by_timestamp_length rows :
  List.length (order_by_timestamp rows) = List.length rows.
Proof. apply Permutation_length, order_by_timestamp_perm. Qed.

Lemma order_by_timestamp_In r rows : In r (order_by_timestamp rows) <-> In r rows.
Proof.
  split; apply Permutation_in;
    [|symmetry]; apply order_by_timestamp_perm.
Qed.

Lemma insert_by_timestamp_ascending r rows :
  ascending rows -> ascending (insert_by_timestamp r rows).
Proof.
  induction 1 as [|x rows Hx Hasc IH]; cbn.
  - repeat constructor.
  - destruct (Z.leb_spec (timestamp r) (timestamp x)) as [Hle|Hlt].
    + constructor; [|now constructor].
      constructor; [exact Hle|].
      eapply Forall_impl; [|exact Hx]. cbn. intros; lia.
    + constructor; [|exact IH].
      rewrite insert_by_timestamp_perm. constructor; [lia|exact Hx].
Qed.

Lemma order_by_timestamp_ascending rows : ascending (order_by_timestamp rows).
Proof.
  induction rows as [|x rows IH]; cbn; [constructor|].
  now apply insert_by_timestamp_ascending.
Qed.

Lemma select_since_In (now days : Z) r rows :
  In r (select_since now days rows)
  <-> In r rows /\ (now - days * day_us <= timestamp r)%Z.
Proof.
  unfold select_since.
  now rewrite order_by_timestamp_In, filter_In, Z.leb_le.
Qed.

End Frames.

Lemma unique_In (x : string) (l : list string) : In x (unique l) <-> In x l.
Proof.
  induction l as [|y l IH]; cbn; [reflexivity|].
  rewrite filter_In, IH, negb_true_iff, String.eqb_neq.
  destruct (string_dec y x) as [->|Hne]; [tauto|].
  split; [tauto|]. intros [H|H]; [tauto|]. right. split; congruence.
Qed.

Lemma unique_NoDup (l : list string) : NoDup (unique l).
Proof.
  induction l as [|y l IH]; cbn; constructor.
  - rewrite filter_In, String.eqb_refl. cbn. intros [_ H]. discriminate.
  - now apply NoDup_filter.
Qed.

Section Keyed.

Context {E : Type} (entry : string -> option E).

Lemma keyed_In (paths : list string) (path : string) (e : E) :
  In (path, e) (keyed entry paths) <-> In path paths /\ entry path = Some e.
Proof.
  unfold keyed. rewrite in_flat_map. split.
  - intros (p & Hp & Hin).
    destruct (entry p) as [e'|] eqn:Ep; [|contradiction].
    destruct Hin as [Heq|[]]. injection Heq as -> ->. now split.
  - intros [Hp He]. exists path. rewrite He. split; [assumption|now left].
Qed.

Lemma keyed_key (paths : list string) (path : string) :
  In path (map fst (keyed entry paths))
  <-> In path paths /\ exists e, entry path = Some e.
Proof.
  rewrite in_map_iff. split.
  - intros ([p e] & <- & Hin). apply keyed_In in Hin. cbn. split; [tauto|].
    exists e. tauto.
  - intros (Hp & e & He). exists (path, e). split; [reflexivity|].
    now apply keyed_In.
Qed.

End Keyed.

Lemma rows_of_path_length (path : string) (disk_data : list (Row Disk.t)) :
  List.length (rows_of_path path disk_data)
  = List.length (Spec.samples_of path disk_data).
Proof. apply order_by_timestamp_length. Qed.

Lemma samples_of_path_listed (path : string) (disk_data : list (Row Disk.t)) :
  (1 <= List.length (Spec.samples_of path disk_data))%nat ->
  In path (map (fun r => Disk.path (columns r)) disk_data).
Proof.
  unfold Spec.samples_of. intro H.
  destruct (filter _ disk_data) as [|r rows] eqn:E; [cbn in H; lia|].
  assert (Hr : In r (filter
                       (fun r => String.eqb (Disk.path (columns r)) path)
                       disk_data)) by (rewrite E; now left).
  apply filter_In in Hr. destruct Hr as [Hr Hp].
  apply String.eqb_eq in Hp. subst path.
  exact (in_map (fun r => Disk.path (columns r)) _ _ Hr).
Qed.

Lemma keyed_keys {E : Type} (entry : string -> option E) (paths : list string) :
  map fst (keyed entry paths)
  = filter (fun p => match entry p with Some _ => true | None => false end) paths.
Proof.
  induction paths as [|p paths IH]; [reflexivity|].
  unfold keyed in *. cbn [flat_map filter]. rewrite map_app, IH.
  now destruct (entry p).
Qed.

(** ** Per-path disk-usage trends *)

Lemma disk_trend_some (path_data : list (Row Disk.t)) :
  (exists t, disk_trend path_data = Some t)
  <-> (2 <= List.length path_data)%nat.
Proof.
  unfold disk_trend, usage_percent_of.
  destruct path_data as [|a [|b rest]]; cbn [map List.length].
  - split; [intros [t H]; discriminate|lia].
  - split; [intros [t H]; discriminate|lia].
  - split; [lia|]. intros _. eexists. reflexivity.
Qed.

Lemma disk_trends_key (disk_data : list (Row Disk.t)) (path : string) :
  In path (map fst (disk_trends disk_data))
  <-> (2 <= List.length (Spec.samples_of path disk_data))%nat.
Proof.
  change (disk_trends disk_data)
    with (keyed (fun p => disk_trend (rows_of_path p disk_data))
            (unique (map (fun r => Disk.path (columns r)) disk_data))).
  rewrite keyed_key, unique_In, disk_trend_some, rows_of_path_length.
  split; [tauto|]. intro H. split; [|exact H].
  apply samples_of_path_listed. lia.
Qed.

(** C10.  In the per-path disk-usage trends a path is a key of the mapping
    exactly when the window holds at least two of its samples: a path with a
    single sample in the window has no entry. *)
Theorem single_sample_path_has_no_trend (store : Store) (now days : Z)
  (path : string) :
  let window := get_disk_usage_data store now days in
  let n := List.length (Spec.samples_of path window) in
  (forall r, In r window
             <-> In r (disk_usage store)
                 /\ (now - days * day_us <= timestamp r)%Z)
  /\ ascending window
  /\ match disk_usage_trends (generate_trend_analysis store now days) with
     | Some by_path =>
         (In path (map fst by_path) <-> (2 <= n)%nat)
         /\ (n = 1%nat -> forall t, ~ In (path, t) by_path)
         /\ NoDup (map fst by_path)
     | None => window = []
     end.
Proof.
  cbv zeta. split.
  { intro r. apply select_since_In. }
  split; [apply order_by_timestamp_ascending|].
  unfold generate_trend_analysis, trends_of. cbn [disk_usage_trends].
  destruct (get_disk_usage_data store now days) as [|r0 window] eqn:E;
    [reflexivity|].
  split; [apply disk_trends_key|]. split.
  - intros Hn t Hin.
    assert (Hk : In path (map fst (disk_trends (r0 :: window)))).
    { apply in_map_iff. now exists (path, t). }
    apply disk_trends_key in Hk. lia.
  - change (disk_trends (r0 :: window))
      with (keyed (fun p => disk_trend (rows_of_path p (r0 :: window)))
              (unique (map (fun r => Disk.path (columns r)) (r0 :: window)))).
    rewrite keyed_keys. apply NoDup_filter, unique_NoDup.
Qed.

(** ** The monthly rating *)

Lemma count_good (analysis : list (string * Entry.t)) :
  count_occ string_dec
    (map (fun kv => Entry.effectiveness (snd kv)) analysis) "good"%string
  = List.length (filter is_good analysis).
Proof.
  induction analysis as [|kv analysis IH]; [reflexivity|].
  cbn [map count_occ filter]. unfold is_good at 1.
  destruct (string_dec _ _) as [Heq|Hne].
  - rewrite Heq, String.eqb_refl. cbn. now rewrite IH.
  - apply String.eqb_neq in Hne. now rewrite Hne.
Qed.

Lemma filter_length_le_all {A : Type} (p : A -> bool) (l : list A) :
  (List.length (filter p l) <= List.length l)%nat.
Proof.
  induction l as [|a l IH]; cbn; [lia|]. destruct (p a); cbn; lia.
Qed.

Lemma filter_keeps_all {A : Type} (p : A -> bool) (l : list A) :
  List.length (filter p l) = List.length l <-> Forall (fun a => p a = true) l.
Proof.
  induction l as [|a l IH]; cbn.
  - split; [constructor|reflexivity].
  - pose proof (filter_length_le_all p l) as Hle.
    destruct (p a) eqn:Ea; cbn.
    + split.
      * intro H. constructor; [exact Ea|]. apply IH. lia.
      * intro H. inversion H; subst. f_equal. now apply IH.
    + split; [lia|]. intro H. inversion H; subst. congruence.
Qed.

Lemma more_than_half (good total : nat) :
  Qltb (inject_Z (Z.of_nat total) / 2) (inject_Z (Z.of_nat good)) = true
  <-> (total < 2 * good)%nat.
Proof.
  rewrite Qltb_lt. unfold Qlt, Qdiv, Qmult, Qinv, inject_Z.
  cbn [Qnum Qden]. lia.
Qed.

Lemma rate_effectiveness_rule (analysis : list (string * Entry.t)) :
  let r := rate_effectiveness analysis in
  let good := List.length (filter is_good analysis) in
  let total := List.length analysis in
  let all_good :=
    Forall (fun kv => Entry.effectiveness (snd kv) = "good"%string) analysis in
  good_count r = good
  /\ total_paths r = total
  /\ (overall_rating r = "Excellent"%string <-> all_good)
  /\ (overall_rating r = "Good"%string
      <-> ~ all_good /\ (total < 2 * good)%nat)
  /\ (overall_rating r = "Needs Improvement"%string
      <-> ~ all_good /\ (2 * good <= total)%nat).
Proof.
  cbv zeta. unfold rate_effectiveness.
  cbn [good_count total_paths overall_rating].
  rewrite count_good, length_map.
  assert (Hall : List.length (filter is_good analysis) = List.length analysis
                 <-> Forall (fun kv => Entry.effectiveness (snd kv) = "good"%string)
                       analysis).
  { rewrite filter_keeps_all. unfold is_good.
    split; apply Forall_impl; intro kv; apply String.eqb_eq. }
  split; [reflexivity|]. split; [reflexivity|].
  assert (Hle := filter_length_le_all is_good analysis).
  destruct (Nat.eqb_spec (List.length (filter is_good analysis))
              (List.length analysis)) as [Heq|Hne].
  - pose proof (proj1 Hall Heq) as Hyes.
    split; [split; [intros _; exact Hyes|reflexivity]|].
    split; [split; [discriminate|intros [Hn _]; contradiction]|].
    split; [discriminate|intros [Hn _]; contradiction].
  - assert (Hno : ~ Forall
                      (fun kv => Entry.effectiveness (snd kv) = "good"%string)
                      analysis) by (intro H; apply Hne, Hall, H).
    destruct (Qltb _ _) eqn:Eh.
    + apply more_than_half in Eh.
      split; [split; [discriminate|intro; contradiction]|].
      split; [split; [intros _; now split|reflexivity]|].
      split; [discriminate|intros [_ H]; lia].
    + assert (Hhalf : (2 * List.length (filter is_good analysis)
                       <= List.length analysis)%nat).
      { destruct (Nat.le_gt_cases
                    (2 * List.length (filter is_good analysis))
                    (List.length analysis)) as [H|H]; [exact H|].
        apply more_than_half in H. congruence. }
      split; [split; [discriminate|intro; contradiction]|].
      split; [split; [discriminate|intros [_ H]; lia]|].
      split; [intros _; now split|reflexivity].
Qed.

(** C9.  The monthly rating counts the entries labelled ['good'] against
    all entries of the per-path analysis, and reads ['Excellent'] when every
    entry is good, ['Good'] when not all but more than half are, and
    ['Needs Improvement'] otherwise. *)
Theorem effectiveness_rollup (analysis : list (string * Entry.t)) :
  let r := rate_effectiveness analysis in
  let good := List.length (filter is_good analysis) in
  let total := List.length analysis in
  let all_good :=
    Forall (fun kv => Entry.effectiveness (snd kv) = "good"%string) analysis in
  good_count r = good
  /\ total_paths r = total
  /\ (overall_rating r = "Excellent"%string <-> all_good)
  /\ (overall_rating r = "Good"%string
      <-> ~ all_good /\ (total < 2 * good)%nat)
  /\ (overall_rating r = "Needs Improvement"%string
      <-> ~ all_good /\ (2 * good <= total)%nat)
  /\ monthly_cleanup_rating (PerPath analysis) = Some r
  /\ (forall message, monthly_cleanup_rating (NoData message) = None).
Proof.
  cbv zeta.
  destruct (rate_effectiveness_rule analysis) as (Hg & Ht & He & Hm & Hn).
  repeat match goal with |- _ /\ _ => split end;
    first [assumption | reflexivity | intro; reflexivity].
Qed.

(** ** Series *)

Lemma diff_from_differences (x : Q) (rest : list Q) :
  diff_from x rest = map Some (Spec.differences (x :: rest)).
Proof.
  revert x. induction rest as [|y rest IH]; intro x; [reflexivity|].
  cbn [diff_from Spec.differences map]. now rewrite IH.
Qed.

Lemma diff_differences (x : Q) (rest : list Q) :
  diff (x :: rest) = None :: map Some (Spec.differences (x :: rest)).
Proof. cbn [diff]. now rewrite diff_from_differences. Qed.

Lemma dropna_present (l : list Q) : dropna (map Some l) = l.
Proof. induction l as [|x l IH]; cbn; congruence. Qed.


Lemma mean_present (x : Q) (l : list Q) :
  mean (map Some (x :: l)) = Some (Spec.average (x :: l)).
Proof. unfold mean. now rewrite dropna_present. Qed.


Lemma count_below_diff (c : Q) (x : Q) (rest : list Q) :
  count_below c (diff (x :: rest))
  = List.length (filter (fun d => Qltb d c) (Spec.differences (x :: rest))).
Proof.
  rewrite diff_differences. unfold count_below. cbn [filter float_lt].
  induction (Spec.differences (x :: rest)) as [|d ds IH]; [reflexivity|].
  cbn [map filter float_lt]. destruct (Qltb d c); cbn [List.length]; congruence.
Qed.

Lemma tail_most_recent {A : Type} (n : nat) (l : list A) :
  tail n l = Spec.most_recent n l.
Proof.
  unfold tail, Spec.most_recent.
  now rewrite firstn_rev, rev_involutive.
Qed.

Lemma most_recent_short {A : Type} (n : nat) (l : list A) :
  (List.length l <= n)%nat -> Spec.most_recent n l = l.
Proof.
  intro H. rewrite <- tail_most_recent. unfold tail.
  replace (List.length l - n)%nat with 0%nat by lia. reflexivity.
Qed.


Section Extremes.

Local Open Scope Q_scope.

Lemma Qmax_choice (x y : Q) : Qmax x y = x \/ Qmax x y = y.
Proof.
  unfold Qmax, GenericMinMax.gmax. destruct (x ?= y); auto.
Qed.


Lemma fold_max_bound (rest : list Q) (x : Q) :
  let m := fold_left Qmax rest x in
  In m (x :: rest) /\ forall y, In y (x :: rest) -> y <= m.
Proof.
  revert x. induction rest as [|z rest IH]; intro x; cbn [fold_left].
  - split; [now left|]. intros y [<-|[]]. apply Qle_refl.
  - destruct (IH (Qmax x z)) as [Hin Hle]. split.
    + destruct Hin as [Hm|Hm]; [|right; right; exact Hm].
      rewrite <- Hm.
      destruct (Qmax_choice x z) as [E|E]; rewrite E; [now left|right; now left].
    + intros y [<-|[<-|Hy]].
      * apply Qle_trans with (Qmax x z); [apply Q.le_max_l|].
        apply Hle. now left.
      * apply Qle_trans with (Qmax x z); [apply Q.le_max_r|].
        apply Hle. now left.
      * apply Hle. now right.
Qed.


End Extremes.

(** ** Trend analysis *)

Section Classification.

Local Open Scope Q_scope.

Lemma classify_nan : classify None = "stable"%string.
Proof. reflexivity. Qed.


Lemma mean_of_numbers (l : list Q) :
  l <> [] -> mean (map Some l) = Some (Spec.average l).
Proof.
  destruct l as [|x l]; [congruence|]. intros _. apply mean_present.
Qed.



End Classification.



(** ** Cleanup effectiveness *)

Lemma analyze_path_some (path_data : list (Row Disk.t)) :
  (exists e, analyze_path path_data = Some e)
  <-> (2 <= List.length path_data)%nat.
Proof.
  unfold analyze_path.
  destruct path_data as [|a [|b rest]]; cbn [List.length].
  - split; [intros [e H]; discriminate|lia].
  - split; [intros [e H]; discriminate|lia].
  - split; [lia|]. intros _. eexists. reflexivity.
Qed.


Section Effectiveness.

Local Open Scope Q_scope.


End Effectiveness.



(** ** Further properties of the cycle and of the analysis *)

(** X1.  Whatever [df -i] prints, [get_inode_usage] meets no division by
    zero: its [try] block can only fail because [df] could not be run or
    because a count could not be read as an integer. *)
Theorem inode_usage_never_divides_by_zero (env : Env) (path : string) (e : exn) :
  inode_usage_try env path = Raise e ->
  (subprocess_run env ["df"; "-i"; path]%string = Raise e \/ e = ValueError)
  /\ (forall result, subprocess_run env ["df"; "-i"; path]%string = Ok result ->
        e <> ZeroDivisionError).
Proof.
  intro H. pose proof (inode_usage_try_raises env path e H) as [Hrun|Hval].
  - split; [now left|]. intros result Hok. congruence.
  - split; [now right|]. intros _ _. subst e. discriminate.
Qed.

Lemma inode_usage_never_divides_by_zero_on_var :
  (subprocess_run Fixtures.host ["df"; "-i"; "/var"]%string
   = Raise (OSError "command failed")
   \/ OSError "command failed" = ValueError)
  /\ (forall result,
        subprocess_run Fixtures.host ["df"; "-i"; "/var"]%string = Ok result ->
        OSError "command failed" <> ZeroDivisionError).
Proof.
  apply (inode_usage_never_divides_by_zero Fixtures.host "/var").
  reflexivity.
Defined.

(** X2.  Alerts are not deduplicated: evaluating the same samples in two
    successive cycles stores their alerts twice. *)
Theorem alerts_are_raised_again (env : Env) (cfg : Config) (now now' : Z)
  (disk : list (option Disk.t)) (inode : list (option Inode.t)) (w : World) :
  let found := threshold_alerts cfg disk inode in
  let row t a := stamped t {| alert := a; resolved := false |} in
  let w1 := snd (check_thresholds_and_alert env cfg now disk inode w) in
  let w2 := snd (check_thresholds_and_alert env cfg now' disk inode w1) in
  alerts (db w2) = alerts (db w) ++ map (row now) found ++ map (row now') found.
Proof.
  cbv zeta. rewrite !check_thresholds_and_alert_db. cbn [alerts].
  now rewrite <- app_assoc.
Qed.

(** X3.  A window of less than a day counts as one day: the reported
    [avg_daily_change] is then the whole change of usage, rounded to three
    decimals. *)
Theorem sub_day_window_counts_one_day (first second : Row Disk.t)
  (others : list (Row Disk.t)) :
  let path_data := first :: second :: others in
  let final := last path_data first in
  let trend :=
    (Disk.usage_percent (columns final)
     - Disk.usage_percent (columns first))%Q in
  (0 <= timestamp final - timestamp first < day_us)%Z ->
  days_between (timestamp first) (timestamp final) = 0%Z
  /\ exists e, analyze_path path_data = Some e
               /\ Entry.avg_daily_change e = round (trend / 1) 3.
Proof.
  cbv zeta. intro Hspan.
  assert (Hdays : days_between (timestamp first)
                    (timestamp (last (first :: second :: others) first)) = 0%Z).
  { unfold days_between. now apply Z.div_small. }
  split; [exact Hdays|].
  eexists. split; [reflexivity|].
  cbn [Entry.avg_daily_change]. now rewrite Hdays.
Qed.

Lemma sub_day_window_on_twenty_hours :
  days_between 0 (20 * 3600 * 1000000) = 0%Z
  /\ exists e, analyze_path Fixtures.twenty_hours = Some e
               /\ Entry.avg_daily_change e = round ((62 - 60) / 1) 3.
Proof.
  apply (sub_day_window_counts_one_day
           (hd (Fixtures.stored "/srv" 0 60) Fixtures.twenty_hours)
           (last Fixtures.twenty_hours (Fixtures.stored "/srv" 0 60)) []).
  vm_compute. split; [discriminate|reflexivity].
Defined.

(** ** Rounding keeps order *)

Section RoundingOrder.

Local Open Scope Q_scope.




(** A number of at most [n] decimals is its own rounding. *)
Lemma round_fixed (k : Z) (n : nat) :
  round (k # Z.to_pos (10 ^ Z.of_nat n)) n == k # Z.to_pos (10 ^ Z.of_nat n).
Proof.
  apply (round_exact _ n k).
  pose proof (scale_pos n) as Hp.
  unfold Qeq, Qmult, inject_Z. cbn [Qnum Qden].
  rewrite Pos.mul_1_r, Z2Pos.id by exact Hp. ring.
Qed.



End RoundingOrder.

Section UsageRange.

Local Open Scope Q_scope.




End UsageRange.




(** ** The file-system check *)

Lemma scan_tune2fs_status (lines : list string) (errors : Z) (status : string) :
  scan_tune2fs lines = Ok (errors, status) ->
  (status = "errors_detected"%string /\ (0 < errors)%Z)
  \/ (status = "healthy"%string /\ (errors <= 0)%Z).
Proof.
  induction lines as [|line lines IH]; cbn [scan_tune2fs].
  - intro H. injection H as <- <-. right. split; [reflexivity|lia].
  - destruct (contains _ line); [|exact IH].
    destruct (split_on ":" line) as [|? [|field ?]]; try discriminate.
    destruct (int (strip field)) as [n|e]; cbn [bind]; [|discriminate].
    intro H. injection H as <- <-.
    destruct (Z.ltb_spec 0 n); [left|right]; split; auto; lia.
Qed.

Lemma filesystem_health_try_status (env : Env) (path : string) (f : Fs.t) :
  filesystem_health_try env path = Ok f ->
  Fs.path f = path
  /\ ((Fs.status f = "errors_detected"%string /\ (0 < Fs.errors f)%Z)
      \/ (Fs.status f = "healthy"%string /\ (Fs.errors f <= 0)%Z))
  /\ (Fs.status f = "errors_detected"%string ->
      In (Fs.filesystem f) ["ext2"; "ext3"; "ext4"]%string).
Proof.
  unfold filesystem_health_try.
  destruct (subprocess_run env ["df"; "-T"; path]%string) as [result|e];
    cbn [bind]; [|discriminate].
  set (filesystem := filesystem_type result).
  destruct (existsb (String.eqb filesystem) _) eqn:Eext.
  - destruct (subprocess_run env ["tune2fs"; "-l"; path]%string) as [r2|e];
      cbn [bind]; [|discriminate].
    assert (Hin : In filesystem ["ext2"; "ext3"; "ext4"]%string).
    { apply existsb_exists in Eext. destruct Eext as (x & Hx & Heq).
      apply String.eqb_eq in Heq. now subst x. }
    destruct (returncode r2 =? 0)%Z.
    + destruct (scan_tune2fs _) as [[errors status]|e] eqn:Es; cbn [bind];
        [|discriminate].
      intro H. injection H as <-. cbn [Fs.path Fs.status Fs.errors Fs.filesystem].
      split; [reflexivity|]. split; [exact (scan_tune2fs_status _ _ _ Es)|].
      intros _. exact Hin.
    + cbn [bind]. intro H. injection H as <-.
      cbn [Fs.path Fs.status Fs.errors Fs.filesystem].
      split; [reflexivity|]. split; [right; split; [reflexivity|lia]|].
      intros _. exact Hin.
  - cbn [bind]. intro H. injection H as <-.
    cbn [Fs.path Fs.status Fs.errors Fs.filesystem].
    split; [reflexivity|]. split; [right; split; [reflexivity|lia]|].
    discriminate.
Qed.

(** X6.  [check_filesystem_health] always returns a record of the path
    asked for whose status is one of ["healthy"], ["errors_detected"] and
    ["check_failed"].  Errors are detected exactly when the error count is
    positive, and only on ext2, ext3 or ext4; the check failed exactly when
    its [try] block raised, and then the record has [errors = -1] and file
    system ["unknown"].  The database is not touched. *)
Theorem filesystem_health_invariant (env : Env) (path : string) (w : World) :
  let f := fst (check_filesystem_health env path w) in
  Fs.path f = path
  /\ (Fs.status f = "healthy"%string
      \/ Fs.status f = "errors_detected"%string
      \/ Fs.status f = "check_failed"%string)
  /\ (Fs.status f = "errors_detected"%string <-> (0 < Fs.errors f)%Z)
  /\ (Fs.status f = "errors_detected"%string ->
      In (Fs.filesystem f) ["ext2"; "ext3"; "ext4"]%string)
  /\ (Fs.status f = "check_failed"%string
      <-> exists e, filesystem_health_try env path = Raise e)
  /\ (Fs.status f = "check_failed"%string ->
      Fs.errors f = (-1)%Z /\ Fs.filesystem f = "unknown"%string)
  /\ db (snd (check_filesystem_health env path w)) = db w.
Proof.
  cbv zeta. rewrite check_filesystem_health_value, check_filesystem_health_db.
  destruct (filesystem_health_try env path) as [f|e] eqn:E.
  - destruct (filesystem_health_try_status env path f E)
      as (Hp & [[Hs He]|[Hs He]] & Hext); rewrite ?Hs in *.
    + split; [exact Hp|]. split; [right; now left|].
      split; [split; auto|]. split; [exact Hext|].
      split; [split; [discriminate|intros [e' H]; discriminate]|].
      split; [discriminate|reflexivity].
    + split; [exact Hp|]. split; [now left|].
      split; [split; [discriminate|lia]|]. split; [discriminate|].
      split; [split; [discriminate|intros [e' H]; discriminate]|].
      split; [discriminate|reflexivity].
  - cbn [check_failed Fs.path Fs.status Fs.errors Fs.filesystem].
    split; [reflexivity|]. split; [right; now right|].
    split; [split; [discriminate|lia]|]. split; [discriminate|].
    split; [split; [intros _; now exists e|reflexivity]|].
    split; [now split|reflexivity].
Qed.

(** ** Storing *)



(** ** Delivery *)



(** ** Pruning again *)




(** ** What a cycle evaluates, and what it keeps *)

(** X10.  The alerts a cycle raises are computed from the samples of
    that cycle alone: the stored history plays no part, so two cycles on the
    same host raise the same alerts whatever the database holds.  Each alert
    names a monitored path that exists. *)
Theorem cycle_evaluates_fresh_samples_only (env : Env) (cfg : Config)
  (clock : Clock) (w w' : World) :
  let batch := fst (collect env cfg w) in
  let new :=
    map (fun a => stamped (at_alerts clock) {| alert := a; resolved := false |})
      (threshold_alerts cfg (map Some (disk_data batch))
         (map Some (inode_data batch))) in
  let cutoff := (at_cleanup_alerts clock - 90 * day_us)%Z in
  alerts (db (snd (run_monitoring_cycle env cfg clock w)))
  = delete_older cutoff (alerts (db w) ++ new)
  /\ alerts (db (snd (run_monitoring_cycle env cfg clock w')))
     = delete_older cutoff (alerts (db w') ++ new)
  /\ (forall a, In a (map (fun r => alert (columns r)) new) ->
        exists p,
          In p (monitored_paths cfg) /\ os_path_exists env p = true
          /\ on_path (message a) = p).
Proof.
  cbv zeta. rewrite !run_monitoring_cycle_db. cbv zeta. cbn [alerts].
  rewrite (collect_any_world env cfg w w').
  split; [reflexivity|]. split; [reflexivity|].
  intros a Ha. rewrite map_map in Ha. cbn [columns stamped alert] in Ha.
  rewrite map_id in Ha.
  rewrite threshold_alerts_per_sample in Ha.
  rewrite collect_value in Ha. cbn [disk_data inode_data] in Ha.
  apply in_app_or in Ha. destruct Ha as [Ha|Ha];
    apply in_flat_map in Ha; destruct Ha as (data & Hdata & Ha);
    apply in_map_iff in Hdata; destruct Hdata as (d & <- & Hd);
    apply gathered_In in Hd; destruct Hd as (p & Hp & Hex & Hv);
    exists p; (split; [exact Hp|]); (split; [exact Hex|]).
  - unfold threshold_alerts in Ha. cbn [fold_left check_disk] in Ha.
    destruct (Qltb _ _); [|contradiction].
    destruct Ha as [<-|[]]. cbn [message on_path].
    destruct (disk_usage_try env p) as [d'|] eqn:E; [|discriminate].
    injection Hv as ->. exact (disk_usage_try_path _ _ _ E).
  - unfold threshold_alerts in Ha. cbn [fold_left check_inode] in Ha.
    destruct (Qltb _ _); [|contradiction].
    destruct Ha as [<-|[]]. cbn [message on_path].
    destruct (inode_usage_try env p) as [[d'|]|] eqn:E; try discriminate.
    injection Hv as ->. exact (inode_usage_try_path _ _ _ E).
Qed.



(** ** Loading a configuration *)

Import Json.

Section Merging.

Implicit Types (fields defaults : list (string * json)) (key : string).






End Merging.





(** ** Creating the tables *)

(** X14.  [init_database] creates the five tables that are missing,
    empty, and keeps the rows of those that exist: run a second time it
    changes nothing, and on a complete database it changes nothing at
    all. *)
Theorem init_database_is_idempotent (file : Database) :
  init_database (init_database file) = init_database file
  /\ (exists s, tables (init_database file) = Some s
        /\ (forall rows, disk_usage_table file = Some rows -> disk_usage s = rows)
        /\ (forall rows, inode_usage_table file = Some rows -> inode_usage s = rows)
        /\ (forall rows, system_health_table file = Some rows ->
              system_health s = rows)
        /\ (forall rows, filesystem_health_table file = Some rows ->
              filesystem_health s = rows)
        /\ (forall rows, alerts_table file = Some rows -> alerts s = rows)
        /\ (disk_usage_table file = None -> disk_usage s = [])
        /\ (inode_usage_table file = None -> inode_usage s = [])
        /\ (system_health_table file = None -> system_health s = [])
        /\ (filesystem_health_table file = None -> filesystem_health s = [])
        /\ (alerts_table file = None -> alerts s = []))
  /\ (forall s, tables file = Some s ->
        init_database file = file /\ tables (init_database file) = Some s).
Proof.
  destruct file as [[d|] [i|] [h|] [f|] [a|]];
    (split; [reflexivity|]);
    (split; [eexists; split; [reflexivity|];
             cbn; repeat split; congruence|]);
    intro s; cbn; intro H; try discriminate; now split.
Qed.


(** ** Windows *)

Section Windows.

Context {A : Type}.
Implicit Types (r : Row A) (rows table : list (Row A)).

Lemma ascending_filter (p : Row A -> bool) rows :
  ascending rows -> ascending (filter p rows).
Proof.
  induction 1 as [|r rows Hr Hasc IH]; cbn [filter]; [constructor|].
  destruct (p r); [|exact IH].
  constructor; [|exact IH].
  apply Forall_forall. intros x Hx. apply filter_In in Hx.
  rewrite Forall_forall in Hr. now apply Hr.
Qed.

Lemma order_by_timestamp_sorted rows :
  ascending rows -> order_by_timestamp rows = rows.
Proof.
  induction 1 as [|r rows Hr Hasc IH]; [reflexivity|].
  cbn [order_by_timestamp fold_right].
  change (fold_right insert_by_timestamp [] rows) with (order_by_timestamp rows).
  rewrite IH. destruct rows as [|x rows]; [reflexivity|].
  cbn [insert_by_timestamp].
  inversion Hr as [|? ? Hx _]; subst.
  apply Z.leb_le in Hx. now rewrite Hx.
Qed.

Lemma insert_by_timestamp_desc_perm r rows :
  Permutation (insert_by_timestamp_desc r rows) (r :: rows).
Proof.
  induction rows as [|x rows IH]; cbn; [reflexivity|].
  destruct (timestamp x <=? timestamp r)%Z; [reflexivity|].
  rewrite IH. apply perm_swap.
Qed.

Lemma order_by_timestamp_desc_perm rows :
  Permutation (order_by_timestamp_desc rows) rows.
Proof.
  induction rows as [|x rows IH]; cbn; [reflexivity|].
  rewrite insert_by_timestamp_desc_perm. now constructor.
Qed.

Lemma insert_by_timestamp_desc_descending r rows :
  descending rows -> descending (insert_by_timestamp_desc r rows).
Proof.
  induction 1 as [|x rows Hx Hdesc IH]; cbn.
  - repeat constructor.
  - destruct (Z.leb_spec (timestamp x) (timestamp r)) as [Hle|Hlt].
    + constructor; [|now constructor].
      constructor; [exact Hle|].
      eapply Forall_impl; [|exact Hx]. cbn. intros; lia.
    + constructor; [|exact IH].
      rewrite insert_by_timestamp_desc_perm. constructor; [lia|exact Hx].
Qed.

Lemma order_by_timestamp_desc_descending rows :
  descending (order_by_timestamp_desc rows).
Proof.
  induction rows as [|x rows IH]; cbn; [constructor|].
  now apply insert_by_timestamp_desc_descending.
Qed.

End Windows.

(** X15.  [get_disk_usage_data] and [get_system_health_data] return
    exactly the rows stamped at or after the cutoff, oldest first; on a table
    already in order that is the table filtered.  A wider window contains
    every row of a narrower one. *)
Theorem window_is_a_sorted_selection (store : Store) (now days : Z) :
  let cutoff := (now - days * day_us)%Z in
  let chosen {A : Type} (table : list (Row A)) :=
    filter (fun r => (cutoff <=? timestamp r)%Z) table in
  Permutation (get_disk_usage_data store now days) (chosen (disk_usage store))
  /\ Permutation (get_system_health_data store now days)
       (chosen (system_health store))
  /\ ascending (get_disk_usage_data store now days)
  /\ ascending (get_system_health_data store now days)
  /\ (ascending (disk_usage store) ->
        get_disk_usage_data store now days = chosen (disk_usage store))
  /\ (ascending (system_health store) ->
        get_system_health_data store now days = chosen (system_health store))
  /\ (forall wider : Z, (days <= wider)%Z ->
        incl (get_disk_usage_data store now days)
             (get_disk_usage_data store now wider)
        /\ incl (get_system_health_data store now days)
                (get_system_health_data store now wider)).
Proof.
  cbv zeta. unfold get_disk_usage_data, get_system_health_data, select_since.
  split; [apply order_by_timestamp_perm|].
  split; [apply order_by_timestamp_perm|].
  split; [apply order_by_timestamp_ascending|].
  split; [apply order_by_timestamp_ascending|].
  split; [intro H; now apply order_by_timestamp_sorted, ascending_filter|].
  split; [intro H; now apply order_by_timestamp_sorted, ascending_filter|].
  intros wider Hw.
  assert (Hday : (0 < day_us)%Z) by reflexivity.
  split; intros r Hr;
    rewrite order_by_timestamp_In, filter_In, Z.leb_le in Hr;
    rewrite order_by_timestamp_In, filter_In, Z.leb_le;
    destruct Hr as [Hin Hts]; (split; [exact Hin|nia]).
Qed.

(** X16.  [get_alerts_data] returns exactly the alerts stamped at or
    after the cutoff, newest first: its first row is the most recent. *)
Theorem alerts_come_newest_first (store : Store) (now days : Z) :
  let window := get_alerts_data store now days in
  descending window
  /\ Permutation window
       (filter (fun r => (now - days * day_us <=? timestamp r)%Z) (alerts store))
  /\ (forall r, In r window
                <-> In r (alerts store)
                    /\ (now - days * day_us <= timestamp r)%Z)
  /\ (forall newest rest, window = newest :: rest ->
        forall r, In r window -> (timestamp r <= timestamp newest)%Z).
Proof.
  cbv zeta. unfold get_alerts_data.
  split; [apply order_by_timestamp_desc_descending|].
  split; [apply order_by_timestamp_desc_perm|].
  split.
  { intro r.
    transitivity
      (In r (filter (fun r => (now - days * day_us <=? timestamp r)%Z)
               (alerts store))).
    - split; apply Permutation_in;
        [|symmetry]; apply order_by_timestamp_desc_perm.
    - now rewrite filter_In, Z.leb_le. }
  intros newest rest E r Hr.
  pose proof (order_by_timestamp_desc_descending
                (filter (fun r => (now - days * day_us <=? timestamp r)%Z)
                   (alerts store))) as Hd.
  rewrite E in Hd, Hr. inversion Hd as [|? ? Hall _]; subst.
  destruct Hr as [<-|Hr]; [lia|].
  rewrite Forall_forall in Hall. now apply Hall.
Qed.

(** ** Sums of differences *)

Section Telescoping.

Local Open Scope Q_scope.

Lemma fold_Qplus_shift (l : list Q) (a : Q) :
  fold_left Qplus l a == a + fold_left Qplus l 0.
Proof.
  revert a. induction l as [|x l IH]; intro a; cbn [fold_left]; [ring|].
  rewrite (IH (a + x)), (IH (0 + x)). ring.
Qed.

Lemma last_default {A : Type} (x d d' : A) (l : list A) :
  last (x :: l) d = last (x :: l) d'.
Proof.
  revert x. induction l as [|y l IH]; intro x; [reflexivity|].
  change (last (x :: y :: l) d) with (last (y :: l) d).
  change (last (x :: y :: l) d') with (last (y :: l) d').
  apply IH.
Qed.

Lemma last_map {A B : Type} (f : A -> B) (l : list A) (d : A) :
  last (map f l) (f d) = f (last l d).
Proof.
  induction l as [|x l IH]; [reflexivity|].
  destruct l as [|y l]; [reflexivity|]. exact IH.
Qed.

(** The differences of a series add up to its last value minus its first. *)
Lemma differences_sum (x : Q) (rest : list Q) :
  fold_left Qplus (Spec.differences (x :: rest)) 0 == last (x :: rest) x - x.
Proof.
  revert x. induction rest as [|y rest IH]; intro x.
  - cbn. ring.
  - change (Spec.differences (x :: y :: rest))
      with ((y - x) :: Spec.differences (y :: rest)).
    cbn [fold_left]. rewrite fold_Qplus_shift, IH.
    change (last (x :: y :: rest) x) with (last (y :: rest) x).
    rewrite (last_default y x y rest). ring.
Qed.




Lemma sum_nonnegative (l : list Q) :
  Forall (fun d => 0 <= d) l -> 0 <= fold_left Qplus l 0.
Proof.
  induction 1 as [|d l Hd _ IH]; cbn [fold_left]; [lra|].
  rewrite fold_Qplus_shift. lra.
Qed.

End Telescoping.

Section TrendsByEndpoints.

Local Open Scope Q_scope.


End TrendsByEndpoints.




(** ** Usage that never falls *)

Lemma no_fall_no_event (ds : list Q) :
  Forall (fun d => (0 <= d)%Q) ds ->
  List.length (filter (fun d => Qltb d (- (1))%Q) ds) = 0%nat.
Proof.
  induction 1 as [|d ds Hd _ IH]; [reflexivity|].
  cbn [filter].
  destruct (Qltb_spec d (- (1))%Q) as [Hlt|_]; [exfalso; lra|exact IH].
Qed.

(** X19.  A path whose usage never falls from one sample to the next
    has no cleanup event, is never rated "good", and its final usage is at
    least its initial usage. *)
Theorem growing_usage_is_never_good (first second : Row Disk.t)
  (others : list (Row Disk.t)) :
  let path_data := first :: second :: others in
  Forall (fun d => (0 <= d)%Q) (Spec.differences (usage_percent_of path_data)) ->
  exists e,
    analyze_path path_data = Some e
    /\ Entry.cleanup_events e = 0%nat
    /\ Entry.effectiveness e <> "good"%string
    /\ (0 <= Disk.usage_percent (columns (last path_data first))
             - Disk.usage_percent (columns first))%Q.
Proof.
  cbv zeta. intro Hup.
  assert (Htrend :
    (0 <= Disk.usage_percent (columns (last (first :: second :: others) first))
          - Disk.usage_percent (columns first))%Q).
  { pose proof (sum_nonnegative _ Hup) as Hsum.
    unfold usage_percent_of in Hsum. cbn [map] in Hsum.
    rewrite differences_sum in Hsum.
    change (Disk.usage_percent (columns first)
            :: Disk.usage_percent (columns second)
            :: map (fun r => Disk.usage_percent (columns r)) others)
      with (map (fun r => Disk.usage_percent (columns r))
              (first :: second :: others)) in Hsum.
    rewrite (last_map (fun r => Disk.usage_percent (columns r))) in Hsum.
    exact Hsum. }
  eexists. split; [reflexivity|].
  cbn [Entry.cleanup_events Entry.effectiveness].
  split; [|split; [|exact Htrend]].
  - unfold usage_percent_of in *. cbn [map] in *.
    rewrite (count_below_diff (- (1))%Q). now apply no_fall_no_event.
  - destruct (Qltb_spec
                (Disk.usage_percent
                   (columns (last (first :: second :: others) first))
                 - Disk.usage_percent (columns first)) 0) as [Hneg|_];
      [exfalso; lra|].
    destruct (Qltb _ _); discriminate.
Qed.

Lemma growing_usage_on_slow_growth :
  exists e,
    analyze_path Fixtures.slow_growth = Some e
    /\ Entry.cleanup_events e = 0%nat
    /\ Entry.effectiveness e <> "good"%string
    /\ (0 <= Disk.usage_percent
               (columns (last Fixtures.slow_growth (Fixtures.stored "/srv" 0 10)))
             - Disk.usage_percent (columns (Fixtures.stored "/srv" 0 10)))%Q.
Proof.
  apply (growing_usage_is_never_good
           (Fixtures.stored "/srv" 0 10) (Fixtures.stored "/srv" 3 11) []).
  repeat constructor. discriminate.
Defined.

(** ** An analysis with no entry *)

Lemma keyed_nothing {E : Type} (entry : string -> option E) (paths : list string) :
  (forall p, In p paths -> entry p = None) -> keyed entry paths = [].
Proof.
  induction paths as [|p paths IH]; intro H; [reflexivity|].
  unfold keyed in *. cbn [flat_map].
  rewrite (H p (or_introl eq_refl)). cbn [app].
  apply IH. intros q Hq. apply H. now right.
Qed.

(** X20.  When the window has data but no path has two samples,
    [analyze_cleanup_effectiveness] returns the empty dictionary, which the
    monthly report rates "Excellent" with 0 of 0 paths good. *)
Theorem lone_samples_rate_excellent (store : Store) (now days : Z) :
  let window := get_disk_usage_data store now days in
  window <> [] ->
  (forall path, (List.length (Spec.samples_of path window) <= 1)%nat) ->
  analyze_cleanup_effectiveness store now days = PerPath []
  /\ monthly_cleanup_rating (analyze_cleanup_effectiveness store now days)
     = Some {| overall_rating := "Excellent"; good_count := 0; total_paths := 0 |}.
Proof.
  cbv zeta. intros Hne Hlone.
  assert (E : analyze_cleanup_effectiveness store now days = PerPath []).
  { unfold analyze_cleanup_effectiveness.
    destruct (get_disk_usage_data store now days) as [|r window] eqn:Ew;
      [congruence|].
    f_equal. unfold analyze_frame. apply keyed_nothing.
    intros p _.
    destruct (analyze_path (rows_of_path p (r :: window))) as [e|] eqn:Ea;
      [|reflexivity].
    assert (Hsome : exists e, analyze_path (rows_of_path p (r :: window)) = Some e)
      by now exists e.
    apply analyze_path_some in Hsome. rewrite rows_of_path_length in Hsome.
    specialize (Hlone p). lia. }
  rewrite E. split; reflexivity.
Qed.

(** A database with its first sample only. *)
Lemma lone_samples_on_first_sample :
  get_disk_usage_data Fixtures.first_sample (101 * day_us) 7 <> []
  /\ monthly_cleanup_rating
       (analyze_cleanup_effectiveness Fixtures.first_sample (101 * day_us) 7)
     = Some {| overall_rating := "Excellent"; good_count := 0; total_paths := 0 |}.
Proof.
  assert (Hwindow : get_disk_usage_data Fixtures.first_sample (101 * day_us) 7
                    = [Fixtures.stored "/" 100 50]) by (vm_compute; reflexivity).
  assert (Hne : get_disk_usage_data Fixtures.first_sample (101 * day_us) 7 <> [])
    by (rewrite Hwindow; discriminate).
  split; [exact Hne|].
  apply (lone_samples_rate_excellent Fixtures.first_sample (101 * day_us) 7 Hne).
  intro path. rewrite Hwindow. unfold Spec.samples_of. cbn [filter].
  destruct (String.eqb _ path); cbn [List.length]; lia.
Defined.


(** ** Counting values *)

Lemma insert_by_count_perm (p : string * nat) (sorted : list (string * nat)) :
  Permutation (insert_by_count p sorted) (p :: sorted).
Proof.
  induction sorted as [|x sorted IH]; cbn [insert_by_count]; [reflexivity|].
  destruct (snd x <? snd p)%nat; [reflexivity|].
  rewrite IH. apply perm_swap.
Qed.

Lemma value_counts_perm (l : list string) :
  Permutation (value_counts l)
    (map (fun v => (v, count_occ string_dec l v)) (unique l)).
Proof.
  unfold value_counts.
  induction (map (fun v => (v, count_occ string_dec l v)) (unique l))
    as [|p ps IH]; cbn; [reflexivity|].
  rewrite insert_by_count_perm. now constructor.
Qed.

Lemma value_counts_In (l : list string) (v : string) (n : nat) :
  In (v, n) (value_counts l)
  <-> In v l /\ n = count_occ string_dec l v.
Proof.
  transitivity (In (v, n) (map (fun v => (v, count_occ string_dec l v)) (unique l))).
  - split; apply Permutation_in; [|symmetry]; apply value_counts_perm.
  - rewrite in_map_iff. split.
    + intros (x & Heq & Hx). injection Heq as -> <-.
      rewrite unique_In in Hx. now split.
    + intros [Hv ->]. exists v. split; [reflexivity|now rewrite unique_In].
Qed.


(** ** Recommendations *)

Lemma in_or_default {A : Type} (raw : list A) (d r : A) :
  In r (match raw with [] => [d] | _ => raw end)
  <-> In r raw \/ (raw = [] /\ r = d).
Proof.
  destruct raw as [|x raw]; cbn.
  - split; [intros [<-|[]]; right; now split|intros [[]|[_ ->]]; now left].
  - split; [intro H; now left|intros [H|[H _]]; [exact H|discriminate]].
Qed.

Lemma disk_recommendations_In (by_path : list (string * DiskTrend.t))
  (r : Recommendation) :
  In r (disk_recommendations by_path)
  <-> exists path t,
        In (path, t) by_path
        /\ ((r = ConsiderCleanup path (DiskTrend.current_usage t)
             /\ (80 < DiskTrend.current_usage t)%Q)
            \/ (r = MonitorDisk path
                /\ (DiskTrend.current_usage t <= 80)%Q
                /\ DiskTrend.trend t = "increasing"%string)).
Proof.
  unfold disk_recommendations. rewrite in_flat_map. split.
  - intros ([path t] & Hin & Hr). exists path, t. split; [exact Hin|].
    destruct (Qltb_spec 80 (DiskTrend.current_usage t)) as [Hhi|Hlo].
    + destruct Hr as [<-|[]]. left. now split.
    + destruct (String.eqb_spec (DiskTrend.trend t) "increasing") as [Ht|Ht];
        [|contradiction].
      destruct Hr as [<-|[]]. right. now repeat split.
  - intros (path & t & Hin & [[-> Hhi]|(-> & Hlo & Ht)]);
      exists (path, t); (split; [exact Hin|]).
    + apply Qltb_lt in Hhi. rewrite Hhi. now left.
    + apply Qltb_ge in Hlo. rewrite Hlo, Ht. now left.
Qed.

Lemma recurring_recommendations_In (alerts : list (Row AlertColumns))
  (r : Recommendation) :
  In r (recurring_recommendations alerts)
  <-> exists kind n,
        r = AddressRecurring kind n
        /\ n = count_occ string_dec
                 (map (fun x => alert_type (alert (columns x))) alerts) kind
        /\ (3 < n)%nat.
Proof.
  unfold recurring_recommendations. rewrite in_flat_map. split.
  - intros ([kind n] & Hin & Hr). apply value_counts_In in Hin.
    destruct Hin as [_ Hn].
    destruct (Nat.ltb_spec 3 n); [|contradiction].
    destruct Hr as [<-|[]]. exists kind, n. now repeat split.
  - intros (kind & n & -> & Hn & Hgt). exists (kind, n). split.
    + apply value_counts_In. split; [|exact Hn].
      apply (count_occ_In string_dec). lia.
    + apply Nat.ltb_lt in Hgt. rewrite Hgt. now left.
Qed.

(** X21.  [generate_recommendations] is never empty, and each of its
    recommendations is there exactly for its reason: CPU or memory trend
    increasing, a path above 80 per cent (else increasing), an alert type
    seen more than three times.  The "appears healthy" line appears exactly
    when it is the only one. *)
Theorem recommendations_have_their_reasons (trends : Trends)
  (alerts : list (Row AlertColumns)) :
  let recs := generate_recommendations trends alerts in
  let kinds := map (fun r => alert_type (alert (columns r))) alerts in
  recs <> []
  /\ (In MonitorCpu recs
      <-> exists t, cpu trends = Some t
                    /\ Metric.trend t = "increasing"%string)
  /\ (In MonitorMemory recs
      <-> exists t, memory trends = Some t
                    /\ Metric.trend t = "increasing"%string)
  /\ (forall path usage,
        In (ConsiderCleanup path usage) recs
        <-> exists by_path t,
              disk_usage_trends trends = Some by_path /\ In (path, t) by_path
              /\ usage = DiskTrend.current_usage t /\ (80 < usage)%Q)
  /\ (forall path,
        In (MonitorDisk path) recs
        <-> exists by_path t,
              disk_usage_trends trends = Some by_path /\ In (path, t) by_path
              /\ (DiskTrend.current_usage t <= 80)%Q
              /\ DiskTrend.trend t = "increasing"%string)
  /\ (forall kind n,
        In (AddressRecurring kind n) recs
        <-> n = count_occ string_dec kinds kind /\ (3 < n)%nat)
  /\ (In AppearsHealthy recs <-> recs = [AppearsHealthy])
  /\ (forall r, In r recs ->
        match r with
        | MonitorCpu | MonitorMemory | ConsiderCleanup _ _ | MonitorDisk _
        | AddressRecurring _ _ | AppearsHealthy => True
        | _ => False
        end).
Proof.
  cbv zeta. unfold generate_recommendations.
  set (raw := (if is_increasing (cpu trends) then [MonitorCpu] else [])
              ++ (if is_increasing (memory trends) then [MonitorMemory] else [])
              ++ match disk_usage_trends trends with
                 | Some by_path => disk_recommendations by_path
                 | None => []
                 end
              ++ recurring_recommendations alerts).
  assert (Hraw : forall r,
    In r raw
    <-> (r = MonitorCpu /\ is_increasing (cpu trends) = true)
        \/ (r = MonitorMemory /\ is_increasing (memory trends) = true)
        \/ (exists by_path, disk_usage_trends trends = Some by_path
                            /\ In r (disk_recommendations by_path))
        \/ In r (recurring_recommendations alerts)).
  { intro r. unfold raw. rewrite !in_app_iff.
    assert (H1 : forall (b : bool) (x : Recommendation),
               In r (if b then [x] else []) <-> r = x /\ b = true).
    { intros [|] x; cbn; split.
      - intros [<-|[]]. now split.
      - intros [-> _]. now left.
      - intros [].
      - intros [_ H]. discriminate. }
    rewrite !H1.
    assert (H2 : In r match disk_usage_trends trends with
                      | Some by_path => disk_recommendations by_path
                      | None => []
                      end
                 <-> exists by_path, disk_usage_trends trends = Some by_path
                                     /\ In r (disk_recommendations by_path)).
    { destruct (disk_usage_trends trends) as [by_path|].
      - split; [intro H; now exists by_path|].
        intros (b & Hb & H). now injection Hb as ->.
      - split; [intros []|intros (b & Hb & _); discriminate]. }
    rewrite H2. tauto. }
  assert (Hinc : forall m, is_increasing m = true
                           <-> exists t, m = Some t
                                         /\ Metric.trend t = "increasing"%string).
  { intros [t|]; cbn.
    - rewrite String.eqb_eq. split; [intro H; now exists t|].
      intros (t' & Ht & H). now injection Ht as ->.
    - split; [discriminate|intros (t & H & _); discriminate]. }
  assert (Hhealthy : ~ In AppearsHealthy raw).
  { intro H. apply Hraw in H.
    destruct H as [[H _]|[[H _]|[(b & _ & H)|H]]]; try discriminate.
    - apply disk_recommendations_In in H.
      destruct H as (? & ? & _ & [[H _]|[H _]]); discriminate.
    - apply recurring_recommendations_In in H.
      destruct H as (? & ? & H & _); discriminate. }
  split.
  { destruct raw; discriminate. }
  split.
  { rewrite in_or_default, Hraw, <- Hinc. split.
    - intros [[[_ H]|[[H _]|[(b & _ & H)|H]]]|[_ H]]; try discriminate; auto.
      + apply disk_recommendations_In in H.
        destruct H as (? & ? & _ & [[H _]|[H _]]); discriminate.
      + apply recurring_recommendations_In in H.
        destruct H as (? & ? & H & _); discriminate.
    - intro H. left. left. now split. }
  split.
  { rewrite in_or_default, Hraw, <- Hinc. split.
    - intros [[[H _]|[[_ H]|[(b & _ & H)|H]]]|[_ H]]; try discriminate; auto.
      + apply disk_recommendations_In in H.
        destruct H as (? & ? & _ & [[H _]|[H _]]); discriminate.
      + apply recurring_recommendations_In in H.
        destruct H as (? & ? & H & _); discriminate.
    - intro H. left. right. left. now split. }
  split.
  { intros path usage. rewrite in_or_default, Hraw. split.
    - intros [[[H _]|[[H _]|[(b & Hb & H)|H]]]|[_ H]]; try discriminate.
      + apply disk_recommendations_In in H.
        destruct H as (p & t & Hin & [[H Hhi]|[H _]]); [|discriminate].
        injection H as -> ->. exists b, t. auto.
      + apply recurring_recommendations_In in H.
        destruct H as (? & ? & H & _); discriminate.
    - intros (b & t & Hb & Hin & -> & Hhi). left. right. right. left.
      exists b. split; [exact Hb|]. apply disk_recommendations_In.
      exists path, t. split; [exact Hin|]. left. now split. }
  split.
  { intros path. rewrite in_or_default, Hraw. split.
    - intros [[[H _]|[[H _]|[(b & Hb & H)|H]]]|[_ H]]; try discriminate.
      + apply disk_recommendations_In in H.
        destruct H as (p & t & Hin & [[H _]|(H & Hlo & Ht)]); [discriminate|].
        injection H as ->. exists b, t. auto.
      + apply recurring_recommendations_In in H.
        destruct H as (? & ? & H & _); discriminate.
    - intros (b & t & Hb & Hin & Hlo & Ht). left. right. right. left.
      exists b. split; [exact Hb|]. apply disk_recommendations_In.
      exists path, t. split; [exact Hin|]. right. now repeat split. }
  split.
  { intros kind n. rewrite in_or_default, Hraw. split.
    - intros [[[H _]|[[H _]|[(b & Hb & H)|H]]]|[_ H]]; try discriminate.
      + apply disk_recommendations_In in H.
        destruct H as (? & ? & _ & [[H _]|[H _]]); discriminate.
      + apply recurring_recommendations_In in H.
        destruct H as (k & m & H & Hm & Hgt). injection H as -> ->. now split.
    - intros [Hn Hgt]. left. right. right. right.
      apply recurring_recommendations_In. exists kind, n. now repeat split. }
  split.
  { rewrite in_or_default. split.
    - intros [H|[-> _]]; [contradiction|reflexivity].
    - intro E. destruct raw as [|x raw]; [right; now split|].
      left. rewrite E. now left. }
  intros r Hr. apply in_or_default in Hr.
  destruct Hr as [Hr|[_ ->]]; [|exact I].
  apply Hraw in Hr.
  destruct Hr as [[-> _]|[[-> _]|[(b & _ & H)|H]]]; try exact I.
  - apply disk_recommendations_In in H.
    destruct H as (? & ? & _ & [[-> _]|[-> _]]); exact I.
  - apply recurring_recommendations_In in H.
    destruct H as (? & ? & -> & _). exact I.
Qed.

(** X22.  [generate_monthly_recommendations] is never empty.  It
    names the paths rated "poor" and the paths above 75 per cent when there
    are any, asks to review thresholds exactly above ten critical alerts,
    and proposes an upgrade exactly when the average CPU is above 70 or the
    average memory above 80.  The "stable" line appears exactly alone. *)
Theorem monthly_recommendations_have_their_reasons
  (cleanup_analysis : CleanupAnalysis) (trends : Trends)
  (alerts : list (Row AlertColumns)) :
  let recs := generate_monthly_recommendations cleanup_analysis trends alerts in
  let poor :=
    match cleanup_analysis with
    | PerPath analysis =>
        map fst
          (filter (fun kv => String.eqb (Entry.effectiveness (snd kv)) "poor")
             analysis)
    | NoData _ => []
    end in
  let high :=
    match disk_usage_trends trends with
    | Some by_path =>
        map fst
          (filter (fun kv => Qltb 75 (DiskTrend.current_usage (snd kv))) by_path)
    | None => []
    end in
  recs <> []
  /\ (forall paths, In (ImproveCleanup paths) recs <-> paths = poor /\ poor <> [])
  /\ (forall paths, In (PlanCapacity paths) recs <-> paths = high /\ high <> [])
  /\ (In ReviewAlertThresholds recs <-> (10 < critical_count alerts)%nat)
  /\ (In ConsiderCpuUpgrade recs
      <-> exists t avg, cpu trends = Some t
                        /\ Metric.current_avg t = Some avg /\ (70 < avg)%Q)
  /\ (In ConsiderMemoryUpgrade recs
      <-> exists t avg, memory trends = Some t
                        /\ Metric.current_avg t = Some avg /\ (80 < avg)%Q)
  /\ (In PerformanceStable recs <-> recs = [PerformanceStable])
  /\ (forall path, In path poor
      <-> exists analysis e, cleanup_analysis = PerPath analysis
                             /\ In (path, e) analysis
                             /\ Entry.effectiveness e = "poor"%string).
Proof.
  cbv zeta. unfold generate_monthly_recommendations.
  set (poor := match cleanup_analysis with
               | PerPath analysis => _
               | NoData _ => []
               end).
  set (high := match disk_usage_trends trends with
               | Some by_path => _
               | None => []
               end).
  set (raw := match poor with [] => [] | _ => [ImproveCleanup poor] end
              ++ match high with [] => [] | _ => [PlanCapacity high] end
              ++ (if (10 <? critical_count alerts)%nat
                  then [ReviewAlertThresholds] else [])
              ++ (if average_above (cpu trends) 70
                  then [ConsiderCpuUpgrade] else [])
              ++ (if average_above (memory trends) 80
                  then [ConsiderMemoryUpgrade] else [])).
  assert (Hlist : forall (l : list string) (f : list string -> Recommendation)
                         (r : Recommendation),
             In r (match l with [] => [] | _ => [f l] end)
             <-> r = f l /\ l <> []).
  { intros [|x l] f r; cbn; split.
    - intros [].
    - intros [_ H]. congruence.
    - intros [<-|[]]. split; [reflexivity|discriminate].
    - intros [-> _]. now left. }
  assert (Hbool : forall (b : bool) (x r : Recommendation),
             In r (if b then [x] else []) <-> r = x /\ b = true).
  { intros [|] x r; cbn; split.
    - intros [<-|[]]. now split.
    - intros [-> _]. now left.
    - intros [].
    - intros [_ H]. discriminate. }
  assert (Hraw : forall r,
    In r raw
    <-> (r = ImproveCleanup poor /\ poor <> [])
        \/ (r = PlanCapacity high /\ high <> [])
        \/ (r = ReviewAlertThresholds /\ (10 <? critical_count alerts)%nat = true)
        \/ (r = ConsiderCpuUpgrade /\ average_above (cpu trends) 70 = true)
        \/ (r = ConsiderMemoryUpgrade /\ average_above (memory trends) 80 = true)).
  { intro r. unfold raw.
    rewrite !in_app_iff, (Hlist poor ImproveCleanup), (Hlist high PlanCapacity),
      !Hbool. tauto. }
  assert (Habove : forall m bound,
             average_above m bound = true
             <-> exists t avg, m = Some t /\ Metric.current_avg t = Some avg
                               /\ (bound < avg)%Q).
  { intros [t|] bound; unfold average_above, float_gt.
    - destruct (Metric.current_avg t) as [avg|] eqn:Ea.
      + rewrite Qltb_lt. split.
        * intro H. exists t, avg. split; [reflexivity|]. now split.
        * intros (t' & avg' & Ht & Ha' & H). injection Ht as <-.
          rewrite Ea in Ha'. now injection Ha' as <-.
      + split; [discriminate|].
        intros (t' & avg' & Ht & Ha' & _). injection Ht as <-.
        rewrite Ea in Ha'. discriminate.
    - split; [discriminate|intros (t & avg & H & _); discriminate]. }
  split; [destruct raw; discriminate|].
  split.
  { intro paths. rewrite in_or_default, Hraw. split.
    - intros [[[H Hne]|[[H _]|[[H _]|[[H _]|[H _]]]]]|[_ H]]; try discriminate.
      injection H as ->. now split.
    - intros [-> Hne]. left. left. now split. }
  split.
  { intro paths. rewrite in_or_default, Hraw. split.
    - intros [[[H _]|[[H Hne]|[[H _]|[[H _]|[H _]]]]]|[_ H]]; try discriminate.
      injection H as ->. now split.
    - intros [-> Hne]. left. right. left. now split. }
  split.
  { rewrite in_or_default, Hraw, <- Nat.ltb_lt. split.
    - intros [[[H _]|[[H _]|[[_ H]|[[H _]|[H _]]]]]|[_ H]]; try discriminate.
      exact H.
    - intro H. left. right. right. left. now split. }
  split.
  { rewrite in_or_default, Hraw, <- Habove. split.
    - intros [[[H _]|[[H _]|[[H _]|[[_ H]|[H _]]]]]|[_ H]]; try discriminate.
      exact H.
    - intro H. left. right. right. right. left. now split. }
  split.
  { rewrite in_or_default, Hraw, <- Habove. split.
    - intros [[[H _]|[[H _]|[[H _]|[[H _]|[_ H]]]]]|[_ H]]; try discriminate.
      exact H.
    - intro H. left. right. right. right. right. now split. }
  split.
  { rewrite in_or_default, Hraw. split.
    - intros [[[H _]|[[H _]|[[H _]|[[H _]|[H _]]]]]|[-> _]];
        try discriminate. reflexivity.
    - intro E. destruct raw as [|x raw]; [right; now split|].
      left. apply Hraw. rewrite E. now left. }
  intro path. unfold poor. destruct cleanup_analysis as [msg|analysis].
  - split; [intros []|intros (a & e & H & _); discriminate].
  - rewrite in_map_iff. split.
    + intros ([p e] & <- & Hin). apply filter_In in Hin.
      destruct Hin as [Hin Hp]. apply String.eqb_eq in Hp.
      exists analysis, e. now repeat split.
    + intros (a & e & Ha & Hin & Hp). injection Ha as <-.
      exists (path, e). split; [reflexivity|]. apply filter_In.
      split; [exact Hin|]. now apply String.eqb_eq.
Qed.


(** ** What the alert log holds *)

Lemma threshold_alerts_evaluated (cfg : Config)
  (disk : list (option Disk.t)) (inode : list (option Inode.t)) (now : Z) :
  Forall evaluated
    (map (fun a => stamped now {| alert := a; resolved := false |})
       (threshold_alerts cfg disk inode)).
Proof.
  apply Forall_forall. intros r Hr. apply in_map_iff in Hr.
  destruct Hr as (a & <- & Ha).
  rewrite threshold_alerts_per_sample in Ha.
  unfold evaluated. cbn [stamped columns alert resolved].
  apply in_app_or in Ha. destruct Ha as [Ha|Ha];
    apply in_flat_map in Ha; destruct Ha as ([d|] & _ & Ha);
    unfold threshold_alerts in Ha;
    cbn [fold_left check_disk check_inode app] in Ha;
    try contradiction.
  - destruct (Qltb_spec (disk_usage_threshold cfg) (Disk.usage_percent d))
      as [Habove|_]; [|contradiction].
    destruct Ha as [<-|[]].
    cbn [alert_type severity message is_percent threshold_percent].
    split; [reflexivity|]. split; [now left|].
    split; [unfold severity_of; destruct (Qltb 95 _); auto|].
    split; [apply severity_of_critical|exact Habove].
  - destruct (Qltb_spec (inode_usage_threshold cfg) (Inode.usage_percent d))
      as [Habove|_]; [|contradiction].
    destruct Ha as [<-|[]].
    cbn [alert_type severity message is_percent threshold_percent].
    split; [reflexivity|]. split; [now right|].
    split; [unfold severity_of; destruct (Qltb 95 _); auto|].
    split; [apply severity_of_critical|exact Habove].
Qed.

Lemma delete_older_Forall {A : Type} (P : Row A -> Prop) (cutoff : Z)
  (table : list (Row A)) :
  Forall P table -> Forall P (delete_older cutoff table).
Proof.
  rewrite !Forall_forall. intros H r Hr.
  apply delete_older_In in Hr. now apply H.
Qed.

Lemma run_monitoring_cycle_evaluated (env : Env) (cfg : Config) (clock : Clock)
  (w : World) :
  Forall evaluated (alerts (db w)) ->
  Forall evaluated (alerts (db (snd (run_monitoring_cycle env cfg clock w)))).
Proof.
  intro H. rewrite run_monitoring_cycle_db. cbv zeta. cbn [alerts].
  apply delete_older_Forall, Forall_app. split; [exact H|].
  apply threshold_alerts_evaluated.
Qed.

Lemma severity_partition (rows : list (Row AlertColumns)) :
  Forall evaluated rows ->
  List.length rows
  = (critical_count rows
     + List.length
         (filter (fun r => String.eqb (severity (alert (columns r))) "warning")
            rows))%nat.
Proof.
  unfold critical_count.
  induction 1 as [|r rows Hr _ IH]; [reflexivity|].
  destruct Hr as (_ & _ & [Hs|Hs] & _); cbn [filter List.length];
    rewrite Hs; cbn [String.eqb Ascii.eqb Bool.eqb andb List.length]; lia.
Qed.

(** X23.  Every alert a cycle stores is unresolved, of type [disk_usage]
    or [inode_usage], about a usage above the threshold it quotes, and
    critical exactly above 95 per cent.  An alerts table whose rows all
    have this form keeps it through any number of cycles; on it the monthly
    report's critical and warning counts add up to the total, and only
    those two types are counted. *)
Theorem alert_log_stays_well_formed
  (cycles : list (Env * Config * Clock)) (w : World) (now days : Z) :
  Forall evaluated (alerts (db w)) ->
  let w' := run_cycles cycles w in
  Forall evaluated (alerts (db w'))
  /\ match monthly_alert_figures (get_alerts_data (db w') now days) with
     | Some figures =>
         total_alerts figures
         = (critical_alerts figures + warning_alerts figures)%nat
         /\ (forall kind n, In (kind, n) (alert_types figures) ->
               kind = "disk_usage"%string \/ kind = "inode_usage"%string)
     | None => get_alerts_data (db w') now days = []
     end.
Proof.
  intro H. cbv zeta.
  assert (Hinv : Forall evaluated (alerts (db (run_cycles cycles w)))).
  { revert w H. induction cycles as [|[[env cfg] clock] cycles IH]; intros w H;
      [exact H|].
    cbn [run_cycles]. apply IH. now apply run_monitoring_cycle_evaluated. }
  split; [exact Hinv|].
  assert (Hwin : Forall evaluated (get_alerts_data (db (run_cycles cycles w)) now days)).
  { apply Forall_forall. intros r Hr.
    rewrite Forall_forall in Hinv. apply Hinv.
    unfold get_alerts_data in Hr.
    eapply Permutation_in in Hr; [|apply order_by_timestamp_desc_perm].
    apply filter_In in Hr. tauto. }
  unfold monthly_alert_figures.
  destruct (get_alerts_data (db (run_cycles cycles w)) now days) as [|r rows] eqn:E;
    [reflexivity|].
  cbn [total_alerts critical_alerts warning_alerts alert_types].
  split; [now apply severity_partition|].
  intros kind n Hk. apply value_counts_In in Hk. destruct Hk as [Hk _].
  apply in_map_iff in Hk. destruct Hk as (x & <- & Hx).
  rewrite Forall_forall in Hwin. destruct (Hwin x Hx) as (_ & Ht & _).
  exact Ht.
Qed.

(** The first cycle on an empty database. *)
Lemma alert_log_after_first_cycle :
  Forall evaluated (alerts (db Fixtures.fresh))
  /\ Forall evaluated
       (alerts (db (run_cycles
                      [(Fixtures.host, Fixtures.paths_config, Fixtures.day100)]
                      Fixtures.fresh))).
Proof.
  assert (H : Forall evaluated (alerts (db Fixtures.fresh)))
    by apply Forall_nil.
  split; [exact H|].
  exact (proj1 (alert_log_stays_well_formed
                  [(Fixtures.host, Fixtures.paths_config, Fixtures.day100)]
                  Fixtures.fresh (101 * day_us) 30 H)).
Defined.

(** ** Monthly statistics *)

Section MonthlyStatistics.

Local Open Scope Q_scope.

Lemma sql_avg_some (l : list Q) : l <> [] -> exists v, sql_avg l = Some v.
Proof.
  intro H. unfold sql_avg. rewrite mean_of_numbers by exact H. now eexists.
Qed.

Lemma sql_max_some (l : list Q) : l <> [] -> exists v, sql_max l = Some v.
Proof. destruct l as [|x l]; [congruence|]. intros _. now eexists. Qed.

Lemma sum_of_zeros (l : list Q) :
  Forall (fun x => x == 0) l -> fold_left Qplus l 0 == 0.
Proof.
  induction 1 as [|x l Hx _ IH]; cbn [fold_left]; [reflexivity|].
  rewrite fold_Qplus_shift, IH, Hx. ring.
Qed.

Lemma truthy_avg_of_zeros (l : list Q) :
  Forall (fun x => x == 0) l -> truthy (sql_avg l) = false.
Proof.
  intro H. destruct l as [|x l]; [reflexivity|].
  unfold sql_avg. rewrite mean_present. cbn [truthy].
  apply negb_false_iff, Qeq_bool_iff.
  unfold Spec.average. rewrite (sum_of_zeros _ H).
  unfold Qdiv. ring.
Qed.

Lemma truthy_max_of_zeros (l : list Q) :
  Forall (fun x => x == 0) l -> truthy (sql_max l) = false.
Proof.
  intro H. destruct l as [|x l]; [reflexivity|].
  unfold sql_max, Reports.max. cbn [truthy].
  apply negb_false_iff, Qeq_bool_iff.
  destruct (fold_max_bound l x) as [Hin _].
  rewrite Forall_forall in H. now apply H.
Qed.

Lemma figures_assigned (aggregate : list Q -> float)
  (cpu_key memory_key load_key : string) (window : list (Row Health.t)) :
  aggregate [] = None ->
  (forall l, l <> [] -> exists v, aggregate l = Some v) ->
  let cpu := aggregate (map (fun r => Health.cpu_percent (columns r)) window) in
  exists entries,
    assign_all (figures aggregate cpu_key memory_key load_key window)
    = (entries, true)
    /\ (truthy cpu = false -> entries = [])
    /\ (truthy cpu = true ->
          map fst entries = [cpu_key; memory_key; load_key]).
Proof.
  intros Hnone Hsome. cbv zeta. unfold figures.
  destruct (truthy (aggregate (map _ window))) eqn:Et.
  - destruct window as [|r window].
    { cbn [map] in Et. rewrite Hnone in Et. discriminate. }
    destruct (Hsome (map (fun r => Health.cpu_percent (columns r)) (r :: window)))
      as [c Hc]; [discriminate|].
    destruct (Hsome (map (fun r => Health.memory_percent (columns r)) (r :: window)))
      as [m Hm]; [discriminate|].
    destruct (Hsome (map (fun r => Health.load_avg_1 (columns r)) (r :: window)))
      as [l Hl]; [discriminate|].
    rewrite Hc, Hm, Hl. cbn [percent1 fixed2 option_map assign_all].
    eexists. split; [reflexivity|]. split; [discriminate|reflexivity].
  - exists []. split; [reflexivity|]. split; [reflexivity|discriminate].
Qed.

End MonthlyStatistics.

(** X24.  [generate_monthly_statistics] returns only the ["Error"]
    entry when the database file or the health table is missing.  With both
    tables it has no ["Error"] entry and counts the rows of the last thirty
    days; the averages (and the peaks) of memory and load are written exactly
    when the average (the peak) of the CPU is not zero, so an all-zero CPU
    column leaves only the two counts.  Without the alerts table the figures
    written so far are kept and the ["Error"] entry follows them. *)
Theorem monthly_statistics_report_what_they_can (now : Z) :
  generate_monthly_statistics None now = statistics_error
  /\ (forall database,
        system_health_table database = None ->
        generate_monthly_statistics (Some database) now = statistics_error)
  /\ (forall database rows alert_rows,
        system_health_table database = Some rows ->
        alerts_table database = Some alert_rows ->
        let window := since30 now rows in
        let cpu := map (fun r => Health.cpu_percent (columns r)) window in
        let stats := generate_monthly_statistics (Some database) now in
        In ("Data points collected"%string, Count (List.length window)) stats
        /\ In ("Total alerts"%string,
               Count (List.length (since30 now alert_rows))) stats
        /\ ~ In "Error"%string (map fst stats)
        /\ (In "Average memory usage"%string (map fst stats)
            <-> truthy (sql_avg cpu) = true)
        /\ (In "Peak memory usage"%string (map fst stats)
            <-> truthy (sql_max cpu) = true)
        /\ (Forall (fun x => (x == 0)%Q) cpu ->
              stats = [ ("Data points collected"%string,
                         Count (List.length window));
                        ("Total alerts"%string,
                         Count (List.length (since30 now alert_rows))) ]))
  /\ (forall database rows,
        system_health_table database = Some rows ->
        alerts_table database = None ->
        exists figures,
          generate_monthly_statistics (Some database) now
          = (("Data points collected"%string,
              Count (List.length (since30 now rows))) :: figures)
            ++ statistics_error
          /\ ~ In "Total alerts"%string (map fst figures)).
Proof.
  split; [reflexivity|].
  split.
  { intros database H. unfold generate_monthly_statistics. now rewrite H. }
  assert (Hshape : forall database rows,
    system_health_table database = Some rows ->
    exists averages peaks,
      generate_monthly_statistics (Some database) now
      = match alerts_table database with
        | Some alert_rows =>
            (("Data points collected"%string,
              Count (List.length (since30 now rows))) :: averages ++ peaks)
            ++ [("Total alerts"%string,
                 Count (List.length (since30 now alert_rows)))]
        | None =>
            (("Data points collected"%string,
              Count (List.length (since30 now rows))) :: averages ++ peaks)
            ++ statistics_error
        end
      /\ (let cpu := map (fun r => Health.cpu_percent (columns r))
                       (since30 now rows) in
          (truthy (sql_avg cpu) = false -> averages = [])
          /\ (truthy (sql_avg cpu) = true ->
                map fst averages
                = ["Average CPU usage"; "Average memory usage"; "Average load"]%string)
          /\ (truthy (sql_max cpu) = false -> peaks = [])
          /\ (truthy (sql_max cpu) = true ->
                map fst peaks
                = ["Peak CPU usage"; "Peak memory usage"; "Peak load"]%string))).
  { intros database rows Hrows.
    destruct (figures_assigned sql_avg "Average CPU usage" "Average memory usage"
                "Average load" (since30 now rows) eq_refl sql_avg_some)
      as (averages & Ea & Ha0 & Ha1).
    destruct (figures_assigned sql_max "Peak CPU usage" "Peak memory usage"
                "Peak load" (since30 now rows) eq_refl sql_max_some)
      as (peaks & Ep & Hp0 & Hp1).
    exists averages, peaks. split; [|now repeat split].
    unfold generate_monthly_statistics. rewrite Hrows.
    cbn [option_map run_blocks assign_all app]. rewrite Ea, Ep.
    destruct (alerts_table database) as [alert_rows|];
      cbn [option_map run_blocks assign_all app];
      now rewrite <- ?app_assoc. }
  split.
  { intros database rows alert_rows Hrows Halerts. cbv zeta.
    destruct (Hshape database rows Hrows) as (averages & peaks & E & Ha0 & Ha1 & Hp0 & Hp1).
    rewrite Halerts in E. rewrite E. clear E.
    set (cpu := map (fun r => Health.cpu_percent (columns r)) (since30 now rows)) in *.
    split; [now left|].
    split; [apply in_or_app; right; now left|].
    assert (Hkeys :
      map fst
        ((("Data points collected"%string, Count (List.length (since30 now rows)))
          :: averages ++ peaks)
         ++ [("Total alerts"%string,
              Count (List.length (since30 now alert_rows)))])
      = ("Data points collected"%string :: map fst averages ++ map fst peaks)
        ++ ["Total alerts"%string]).
    { cbn [map app]. now rewrite !map_app. }
    rewrite Hkeys. clear Hkeys.
    destruct (truthy (sql_avg cpu)) eqn:Ta; destruct (truthy (sql_max cpu)) eqn:Tp;
      rewrite ?(Ha0 eq_refl), ?(Ha1 eq_refl), ?(Hp0 eq_refl), ?(Hp1 eq_refl);
      cbn [map app In];
      (split; [intuition discriminate|]);
      (split; [split; intro H; first [reflexivity | discriminate H
                                       | intuition discriminate | tauto]|]);
      (split; [split; intro H; first [reflexivity | discriminate H
                                       | intuition discriminate | tauto]|]);
      intro Hz;
      try (rewrite (truthy_avg_of_zeros _ Hz) in Ta; discriminate Ta);
      try (rewrite (truthy_max_of_zeros _ Hz) in Tp; discriminate Tp);
      reflexivity. }
  intros database rows Hrows Halerts.
  destruct (Hshape database rows Hrows) as (averages & peaks & E & Ha0 & Ha1 & Hp0 & Hp1).
  rewrite Halerts in E. exists (averages ++ peaks). split; [exact E|].
  rewrite map_app.
  set (cpu := map (fun r => Health.cpu_percent (columns r)) (since30 now rows)) in *.
  destruct (truthy (sql_avg cpu)) eqn:Ta; destruct (truthy (sql_max cpu)) eqn:Tp;
    rewrite ?(Ha0 eq_refl), ?(Ha1 eq_refl), ?(Hp0 eq_refl), ?(Hp1 eq_refl);
    cbn [map app In]; intuition discriminate.
Qed.
